(** * CRUD blog demo: validation, handlers and routing

    A shallow embedding of [controllers/postController.mjs],
    [routes/postRoutes.mjs] and the middleware chain of [server.mjs],
    with the properties of the post validation and persistence workflow
    proved over it.

    Conventions of the embedding:
    - a JavaScript string is the list of its UTF-16 code units, so that
      [length] is JavaScript's [.length];
    - a request handler is a state-passing computation over the document
      store that either returns or throws, and whose value is the single
      response it emits;
    - [console.log] and [console.error] calls are output only and are
      left out. *)

From Stdlib Require Import String Ascii NArith ZArith.
From stdpp Require Import base numbers list strings gmap.

Local Open Scope string_scope.
Local Open Scope list_scope.

(** ** JavaScript strings *)

(** A string value: UTF-16 code units, each below 65536 in a real string.
    No result below depends on that bound. *)
Abbreviation jsstring := (list N).

(** A string literal of the source, all of which are ASCII. *)
Definition js (s : string) : jsstring :=
  N_of_ascii <$> list_ascii_of_string s.
Arguments js : simpl never.

(** [s.length] *)
Definition jslength (s : jsstring) : N := N.of_nat (length s).

(** ToBoolean on a string: only the empty string is falsy. *)
Definition truthy (s : jsstring) : bool :=
  match s with
  | [] => false
  | _ :: _ => true
  end.

(** ECMAScript WhiteSpace and LineTerminator code points, the characters
    that [String.prototype.trim] strips. All lie in the basic plane, so
    the test is per code unit. *)
Definition isWhiteSpace (c : N) : bool :=
  match c with
  | 9 | 10 | 11 | 12 | 13 | 32 | 160 | 5760
  | 8232 | 8233 | 8239 | 8287 | 12288 | 65279 => true
  | _ => (8192 <=? c) && (c <=? 8202)
  end%N.

Fixpoint trimStart (s : jsstring) : jsstring :=
  match s with
  | [] => []
  | c :: rest => if isWhiteSpace c then trimStart rest else s
  end.

Definition trimEnd (s : jsstring) : jsstring :=
  reverse (trimStart (reverse s)).

(** [s.trim()] *)
Definition trim (s : jsstring) : jsstring := trimEnd (trimStart s).

(** A string is blank when it is empty or made of white space only. *)
Definition blank (s : jsstring) : bool := forallb isWhiteSpace s.

(** ** JavaScript values found in a parsed request *)

(** What [express.urlencoded({extended: true})], [express.json()] and the
    query-string parser can put in a field. The payload of a number is
    never inspected by the code. *)
#[local] Set Warnings "-register-all".
Inductive JsValue : Type :=
  | JUndefined
  | JNull
  | JBool (b : bool)
  | JNumber (n : Z)
  | JString (s : jsstring)
  | JArray (items : list JsValue)
  | JObject (props : list (string * JsValue)).
#[local] Set Warnings "register-all".

Definition typeof (v : JsValue) : string :=
  match v with
  | JUndefined => "undefined"
  | JNull => "object"
  | JBool _ => "boolean"
  | JNumber _ => "number"
  | JString _ => "string"
  | JArray _ => "object"
  | JObject _ => "object"
  end.

(** [typeof v === "string" ? v.trim() : ""], the expression that both
    [createPost] and [updatePost] apply to [req.body.title] and
    [req.body.body]. *)
Definition sanitize (v : JsValue) : jsstring :=
  if String.eqb (typeof v) "string"
  then match v with JString s => trim s | _ => [] end
  else [].

(** ** Validation rules *)

Module Msg.
Definition title_required : jsstring := js "Title is required.".
Definition body_required : jsstring := js "Body is required.".
Definition title_too_long : jsstring :=
  js "Title must be 200 characters or fewer.".
Definition body_too_long : jsstring := js "Body is too long.".
Definition all : list jsstring :=
  [title_required; body_required; title_too_long; body_too_long].
End Msg.

(** [errors.push(e)] *)
Definition push (errors : list jsstring) (e : jsstring) : list jsstring :=
  errors ++ [e].

(** The rule block of [createPost]. *)
Definition createErrors (rawTitle rawBody : jsstring) : list jsstring :=
  let errors := [] in
  let errors :=
    if negb (truthy rawTitle) then push errors Msg.title_required
    else errors in
  let errors :=
    if negb (truthy rawBody) then push errors Msg.body_required
    else errors in
  let errors :=
    if truthy rawTitle && (200 <? jslength rawTitle)%N
    then push errors Msg.title_too_long else errors in
  let errors :=
    if truthy rawBody && (10000 <? jslength rawBody)%N
    then push errors Msg.body_too_long else errors in
  errors.

(** The rule block of [updatePost]: the same without the last rule. *)
Definition updateErrors (rawTitle rawBody : jsstring) : list jsstring :=
  let errors := [] in
  let errors :=
    if negb (truthy rawTitle) then push errors Msg.title_required
    else errors in
  let errors :=
    if negb (truthy rawBody) then push errors Msg.body_required
    else errors in
  let errors :=
    if truthy rawTitle && (200 <? jslength rawTitle)%N
    then push errors Msg.title_too_long else errors in
  errors.

(** [errors.length > 0] *)
Definition hasErrors (errors : list jsstring) : bool :=
  (0 <? N.of_nat (length errors))%N.

(** ** The document store *)

(** The stored fields of a post; its id is the key it is stored under. *)
Record Doc : Type := { doc_title : jsstring; doc_body : jsstring }.

(** A post as the store hands it back: the stored fields with [_id]. *)
Record Post : Type :=
  { post_id : jsstring; post_title : jsstring; post_body : jsstring }.

Definition toPost (id : jsstring) (d : Doc) : Post :=
  {| post_id := id; post_title := doc_title d; post_body := doc_body d |}.

(** The repository calls a handler can await. *)
Inductive RepoCall : Type :=
  | CallFind
  | CallFindById (id : jsstring)
  | CallSave (title body : jsstring)
  | CallFindByIdAndUpdate (id title body : jsstring)
  | CallFindByIdAndDelete (id : jsstring).

(** The state a handler runs against: the collection; whether the store
    is out of reach ([Some message]: a call rejects with an error
    carrying that message; no handler makes more than one call, so one
    flag covers a run); and the journal of the calls made so far, oldest
    first, which is bookkeeping of the model and lets a statement say
    which calls a handler made. *)
Record World : Type :=
  { docs : gmap jsstring Doc;
    outage : option jsstring;
    journal : list RepoCall }.

Record JsError : Type := { message : jsstring }.

Inductive Completion (A : Type) : Type :=
  | Normal (a : A)
  | Thrown (e : JsError).
Arguments Normal {A} a.
Arguments Thrown {A} e.

(** An awaited computation. *)
Definition Async (A : Type) : Type := World -> Completion A * World.

Definition ret {A} (a : A) : Async A := fun w => (Normal a, w).

Definition bind {A B} (m : Async A) (k : A -> Async B) : Async B :=
  fun w =>
    match m w with
    | (Normal a, w') => k a w'
    | (Thrown e, w') => (Thrown e, w')
    end.

(** [try { body } catch (error) { handler }] *)
Definition tryCatch {A} (body : Async A) (handler : JsError -> Async A)
  : Async A :=
  fun w =>
    match body w with
    | (Normal a, w') => (Normal a, w')
    | (Thrown e, w') => handler e w'
    end.

Declare Scope async_scope.
Delimit Scope async_scope with async.
Notation "'await' x <- m ; k" := (bind m (fun x => k))
  (at level 10, x name, m at level 100, k at level 200) : async_scope.

(** Run one repository call: it is journalled, rejects during an outage,
    and otherwise reads or changes the collection. *)
Definition repo {A} (call : RepoCall)
  (op : gmap jsstring Doc -> A * gmap jsstring Doc) : Async A :=
  fun w =>
    let j := journal w ++ [call] in
    match outage w with
    | Some msg =>
        (Thrown {| message := msg |},
         {| docs := docs w; outage := outage w; journal := j |})
    | None =>
        let '(a, d) := op (docs w) in
        (Normal a, {| docs := d; outage := outage w; journal := j |})
    end.

(** The Mongoose model [BlogPost] of [models/blogspot.mjs]. That file is
    not among the sources, so each operation below is modelled from the
    spec: the repository of section 4.3, with an opaque id chosen by
    the store, and the two derived values of section 4.1. *)
Module BlogPost.

(** Modelled from the spec: [BlogPost.find()] of the missing model
    file, section 4.3's [listAll]: all posts, in the store's own order. *)
Definition find : Async (list Post) :=
  repo CallFind
    (fun d => ((fun kv => toPost kv.1 kv.2) <$> map_to_list d, d)).

(** Modelled from the spec: [BlogPost.findById(id)] of the missing model
    file, section 4.3's [findById]: the post, or [null] when no post
    has the id. *)
Definition findById (id : jsstring) : Async (option Post) :=
  repo (CallFindById id) (fun d => (toPost id <$> d !! id, d)).

(** Modelled from the spec: the id the store assigns on creation, which
    section 3 only requires to be unique: one no document has. *)
Definition newId (d : gmap jsstring Doc) : jsstring := fresh (dom d).

(** Modelled from the spec: [new BlogPost({title, body}).save()] of the
    missing model file, section 4.3's [create]: insert, return the
    saved post with its id. *)
Definition save (title body : jsstring) : Async Post :=
  repo (CallSave title body)
    (fun d =>
       let id := newId d in
       let doc := {| doc_title := title; doc_body := body |} in
       (toPost id doc, <[id := doc]> d)).

(** Modelled from the spec:
    [BlogPost.findByIdAndUpdate(id, {title, body}, {new: true})] of the
    missing model file, section 4.3's [updateById]: replace both fields,
    return the post after the update, or [null] when there is none. *)
Definition findByIdAndUpdate (id title body : jsstring)
  : Async (option Post) :=
  repo (CallFindByIdAndUpdate id title body)
    (fun d =>
       match d !! id with
       | Some _ =>
           let doc := {| doc_title := title; doc_body := body |} in
           (Some (toPost id doc), <[id := doc]> d)
       | None => (None, d)
       end).

(** Modelled from the spec: [BlogPost.findByIdAndDelete(id)] of the
    missing model file, section 4.3's [deleteById]: remove, return the
    removed post, or [null] when there is none. *)
Definition findByIdAndDelete (id : jsstring) : Async (option Post) :=
  repo (CallFindByIdAndDelete id)
    (fun d =>
       match d !! id with
       | Some doc => (Some (toPost id doc), delete id d)
       | None => (None, d)
       end).

(** Modelled from the spec: the instance method [getSummary] of the
    missing model file, section 4.1's [computeSummary]: the body when
    it has at most [maxLength] code units, else its first [maxLength]
    code units followed by the marker. [maxLength] is 50 when the
    argument is left out. The spec does not spell the marker, so it is
    a parameter. *)
Definition computeSummary (marker : jsstring) (body : jsstring)
  (maxLength : option nat) : jsstring :=
  let maxLength := default 50 maxLength in
  if (length body <=? maxLength)%nat then body
  else take maxLength body ++ marker.

(** Modelled from the spec: the virtual [url], section 4.1's
    [computeUrl]. *)
Definition computeUrl (id : jsstring) : jsstring := js "/posts/" ++ id.

End BlogPost.

(** ** Requests and responses *)

(** A request as the handlers see it. [path] holds the decoded segments
    of the URL below the mount point [/posts]; [params_id] is
    [req.params.id], filled in by the router. *)
Record Request : Type :=
  { method : jsstring;
    originalMethod : option jsstring;
    path : list jsstring;
    query : gmap string JsValue;
    body : gmap string JsValue;
    params_id : jsstring }.

(** [o.k] on a parsed object: [undefined] when the property is absent. *)
Definition field (o : gmap string JsValue) (k : string) : JsValue :=
  default JUndefined (o !! k).

(** One entry of the list view. *)
Record PostExtras : Type :=
  { x_id : jsstring; x_title : jsstring; x_body : jsstring;
    x_url : jsstring; x_summary : jsstring }.

(** The objects handed to the templates. *)
Inductive Locals : Type :=
  | NoLocals
  | IndexLocals (posts : list PostExtras)
  | DetailLocals (id title body url : jsstring)
  | NewLocals (errors : list jsstring) (title body : jsstring)
  | EditLocals (errors : option (list jsstring)) (id title body : jsstring).

(** The response a handler emits. [res.render] and [res.send] answer 200
    unless [res.status] was called; [res.redirect] answers 302. *)
Inductive Response : Type :=
  | Render (status : N) (view : string) (locals : Locals)
  | Send (status : N) (text : jsstring)
  | Redirect (location : jsstring).

Definition statusCode (r : Response) : N :=
  match r with
  | Render status _ _ => status
  | Send status _ => status
  | Redirect _ => 302
  end.

(** ** The controller: [controllers/postController.mjs] *)

Local Open Scope async_scope.

Section Controller.

(** The marker [getSummary] appends; only the list view shows it. *)
Variable marker : jsstring.

Definition getAllPosts (req : Request) : Async Response :=
  tryCatch
    (await posts <- BlogPost.find;
     let postsWithExtras :=
       (fun post =>
          {| x_id := post_id post;
             x_title := post_title post;
             x_body := post_body post;
             x_url := BlogPost.computeUrl (post_id post);
             x_summary :=
               BlogPost.computeSummary marker (post_body post) (Some 50%nat)
          |}) <$> posts in
     ret (Render 200 "index" (IndexLocals postsWithExtras)))
    (fun error =>
       ret (Send 500 (js "Error fetching posts: " ++ message error))).

End Controller.

Definition getPostById (req : Request) : Async Response :=
  tryCatch
    (await post <- BlogPost.findById (params_id req);
     match post with
     | None => ret (Send 404 (js "Post not found"))
     | Some post =>
         ret (Render 200 "detail"
                (DetailLocals (post_id post) (post_title post)
                   (post_body post) (BlogPost.computeUrl (post_id post))))
     end)
    (fun error =>
       ret (Send 500 (js "Error fetching post: " ++ message error))).

Definition showNewPostForm (req : Request) : Async Response :=
  ret (Render 200 "new" NoLocals).

Definition createPost (req : Request) : Async Response :=
  tryCatch
    (let rawTitle := sanitize (field (body req) "title") in
     let rawBody := sanitize (field (body req) "body") in
     let errors := createErrors rawTitle rawBody in
     if hasErrors errors
     then ret (Render 400 "new" (NewLocals errors rawTitle rawBody))
     else
       await saved <- BlogPost.save rawTitle rawBody;
       ret (Redirect (js "/posts/" ++ post_id saved)))
    (fun error =>
       ret (Send 500 (js "Error creating post: " ++ message error))).

Definition deletePost (req : Request) : Async Response :=
  tryCatch
    (let id := params_id req in
     await deleted <- BlogPost.findByIdAndDelete id;
     match deleted with
     | None => ret (Send 404 (js "Post not found"))
     | Some _ => ret (Redirect (js "/posts/"))
     end)
    (fun error =>
       ret (Send 500 (js "Error deleting post: " ++ message error))).

Definition showEditForm (req : Request) : Async Response :=
  tryCatch
    (await post <- BlogPost.findById (params_id req);
     match post with
     | None => ret (Send 404 (js "Post not found"))
     | Some post =>
         ret (Render 200 "edit"
                (EditLocals None (post_id post) (post_title post)
                   (post_body post)))
     end)
    (fun error => ret (Send 500 (js "Error: " ++ message error))).

Definition updatePost (req : Request) : Async Response :=
  tryCatch
    (let rawTitle := sanitize (field (body req) "title") in
     let rawBody := sanitize (field (body req) "body") in
     let errors := updateErrors rawTitle rawBody in
     if hasErrors errors
     then ret (Render 400 "edit"
                 (EditLocals (Some errors) (params_id req) rawTitle rawBody))
     else
       await updated <-
         BlogPost.findByIdAndUpdate (params_id req) rawTitle rawBody;
       match updated with
       | None => ret (Send 404 (js "Post not found"))
       | Some updated => ret (Redirect (js "/posts/" ++ post_id updated))
       end)
    (fun error =>
       ret (Send 500 (js "Error updating post: " ++ message error))).

(** The last handler of the [/:id] route, straight in the router. *)
Definition fallbackPost (req : Request) : Async Response :=
  ret (Send 405
         (js "Method Not Allowed. Use method-override for PUT/DELETE.")).

(** ** Method override: the two [methodOverride] layers of [server.mjs] *)

(** [toUpperCase] on ASCII letters. JavaScript also maps letters outside
    ASCII. The code applies it to a method name that [supports] has
    accepted, which is made of ASCII characters and Kelvin signs
    (U+212A, its own upper case), where this is JavaScript's result;
    and route paths are compared through it, where a character outside
    ASCII never matches an ASCII one either way. *)
Definition upperUnit (c : N) : N :=
  if ((97 <=? c) && (c <=? 122))%N then (c - 32)%N else c.

Definition toUpperCase (s : jsstring) : jsstring := upperUnit <$> s.

(** [toLowerCase] on the code units whose lower case is an ASCII letter:
    the ASCII capitals and the Kelvin sign U+212A, whose lower case is
    [k]. JavaScript also maps other letters, always to characters
    outside ASCII (U+0130 to [i] followed by U+0307), so whether the
    result is one of the ASCII method names below is decided exactly. *)
Definition lowerUnit (c : N) : N :=
  if ((65 <=? c) && (c <=? 90))%N then (c + 32)%N
  else if (c =? 8490)%N then 107%N else c.

Definition toLowerCase (s : jsstring) : jsstring := lowerUnit <$> s.

(** Node's [http.METHODS], as of Node 18, the version the README asks
    for; later versions add names. *)
Definition HTTP_METHODS : list jsstring :=
  js <$> ["ACL"; "BIND"; "CHECKOUT"; "CONNECT"; "COPY"; "DELETE"; "GET";
          "HEAD"; "LINK"; "LOCK"; "M-SEARCH"; "MERGE"; "MKACTIVITY";
          "MKCALENDAR"; "MKCOL"; "MOVE"; "NOTIFY"; "OPTIONS"; "PATCH";
          "POST"; "PROPFIND"; "PROPPATCH"; "PURGE"; "PUT"; "REBIND";
          "REPORT"; "SEARCH"; "SOURCE"; "SUBSCRIBE"; "TRACE"; "UNBIND";
          "UNLINK"; "UNLOCK"; "UNSUBSCRIBE"].

(** ToBoolean *)
Definition jsTruthy (v : JsValue) : bool :=
  match v with
  | JUndefined | JNull => false
  | JBool b => b
  | JNumber n => negb (n =? 0)%Z
  | JString s => truthy s
  | JArray _ | JObject _ => true
  end.

(** The list of the [methods] package that the middleware consults:
    Node's method names in lower case. *)
Definition methods : list jsstring := toLowerCase <$> HTTP_METHODS.

(** [method && typeof method === 'string' &&
     methods.indexOf(method.toLowerCase()) !== -1] *)
Definition supports (v : JsValue) : bool :=
  jsTruthy v && String.eqb (typeof v) "string" &&
  match v with
  | JString s => bool_decide (toLowerCase s ∈ methods)
  | _ => false
  end.

Definition setMethod (m : jsstring) (req : Request) : Request :=
  {| method := m; originalMethod := originalMethod req; path := path req;
     query := query req; body := body req; params_id := params_id req |}.

Definition setOriginalMethod (m : jsstring) (req : Request) : Request :=
  {| method := method req; originalMethod := Some m; path := path req;
     query := query req; body := body req; params_id := params_id req |}.

Definition setBody (b : gmap string JsValue) (req : Request) : Request :=
  {| method := method req; originalMethod := originalMethod req;
     path := path req; query := query req; body := b;
     params_id := params_id req |}.

Definition setParamsId (id : jsstring) (req : Request) : Request :=
  {| method := method req; originalMethod := originalMethod req;
     path := path req; query := query req; body := body req;
     params_id := id |}.

(** The getter of [methodOverride("_method")]: a name that does not start
    with [X-] is a query-string key, read as [query[key] || '']. *)
Definition queryGetter (req : Request) : JsValue * Request :=
  let val := field (query req) "_method" in
  (if jsTruthy val then val else JString [], req).

(** The getter written in [server.mjs]: take [_method] out of the body. *)
Definition bodyGetter (req : Request) : JsValue * Request :=
  match body req !! "_method" with
  | Some m => (m, setBody (delete "_method" (body req)) req)
  | None => (JUndefined, req)
  end.

(** The middleware [methodOverride(getter)] with its default options:
    only a request that arrived as POST is examined. *)
Definition methodOverride (get : Request -> JsValue * Request)
  (req : Request) : Request :=
  let orig :=
    match originalMethod req with
    | Some m => if truthy m then m else method req
    | None => method req
    end in
  let req := setOriginalMethod orig req in
  if bool_decide (orig ∈ [js "POST"]) then
    let '(val, req) := get req in
    let m :=
      match val with
      | JArray items => default JUndefined (head items)
      | _ => val
      end in
    match m with
    | JString s => if supports m then setMethod (toUpperCase s) req else req
    | _ => req
    end
  else req.

(** ** The router: [routes/postRoutes.mjs] *)

Inductive Handler : Type :=
  | HGetAllPosts | HShowNewPostForm | HCreatePost | HGetPostById
  | HUpdatePost | HDeletePost | HFallbackPost | HShowEditForm.

Inductive Pattern : Type := PRoot | PNew | PId | PIdEdit.

(** Route paths match without regard to letter case (Express's default). *)
Definition sameNoCase (a b : jsstring) : bool :=
  bool_decide (toUpperCase a = toUpperCase b).

(** Match a path against a route pattern, giving [req.params.id] (empty
    for a pattern without [:id]). *)
Definition matchPath (p : Pattern) (segs : list jsstring) : option jsstring :=
  match p, segs with
  | PRoot, [] => Some []
  | PNew, [s] => if sameNoCase s (js "new") then Some [] else None
  | PId, [id] => if truthy id then Some id else None
  | PIdEdit, [id; s] =>
      if truthy id && sameNoCase s (js "edit") then Some id else None
  | _, _ => None
  end.

(** The routes in the order they are declared, each with its handlers. *)
Definition postRoutes : list (Pattern * list (jsstring * Handler)) :=
  [ (PRoot, [(js "GET", HGetAllPosts)]);
    (PNew, [(js "GET", HShowNewPostForm); (js "POST", HCreatePost)]);
    (PId, [(js "GET", HGetPostById); (js "PUT", HUpdatePost);
           (js "DELETE", HDeletePost); (js "POST", HFallbackPost)]);
    (PIdEdit, [(js "GET", HShowEditForm)]) ].

Fixpoint handlerFor (hs : list (jsstring * Handler)) (m : jsstring)
  : option Handler :=
  match hs with
  | [] => None
  | (m', h) :: rest => if bool_decide (m = m') then Some h else handlerFor rest m
  end.

(** A route without a HEAD handler serves HEAD with its GET handler. *)
Definition routeHandler (hs : list (jsstring * Handler)) (m : jsstring)
  : option Handler :=
  match handlerFor hs m with
  | Some h => Some h
  | None => if bool_decide (m = js "HEAD") then handlerFor hs (js "GET") else None
  end.

(** The first route whose path matches and that handles the method; a
    route that matches the path only is passed over. [None]: no handler
    of this application runs, the request is left to Express. *)
Fixpoint dispatch (routes : list (Pattern * list (jsstring * Handler)))
  (m : jsstring) (segs : list jsstring) : option (Handler * jsstring) :=
  match routes with
  | [] => None
  | (pat, hs) :: rest =>
      match matchPath pat segs with
      | Some id =>
          match routeHandler hs m with
          | Some h => Some (h, id)
          | None => dispatch rest m segs
          end
      | None => dispatch rest m segs
      end
  end.

Definition runHandler (marker : jsstring) (h : Handler)
  : Request -> Async Response :=
  match h with
  | HGetAllPosts => getAllPosts marker
  | HShowNewPostForm => showNewPostForm
  | HCreatePost => createPost
  | HGetPostById => getPostById
  | HUpdatePost => updatePost
  | HDeletePost => deletePost
  | HFallbackPost => fallbackPost
  | HShowEditForm => showEditForm
  end.

(** A request under [/posts] through the middleware chain of
    [server.mjs] and the router. The body parsers have already produced
    [body]; the static-file layer is taken to hold no file under
    [posts/]. *)
Definition app (marker : jsstring) (req : Request) (w : World)
  : option (Completion Response * World) :=
  let req := methodOverride queryGetter req in
  let req := methodOverride bodyGetter req in
  match dispatch postRoutes (method req) (path req) with
  | Some (h, id) => Some (runHandler marker h (setParamsId id req) w)
  | None => None
  end.

(** ** Vocabulary of the statements *)

(** The message of a rule, when its condition holds. *)
Definition fires (condition : bool) (msg : jsstring) : list jsstring :=
  if condition then [msg] else [].

(** No stored title or body is empty or made of white space only. *)
Definition noBlankField (d : gmap jsstring Doc) : Prop :=
  ∀ id doc, d !! id = Some doc →
    blank (doc_title doc) = false ∧ blank (doc_body doc) = false.

(** The world after one repository call that failed or that left the
    collection as it was. *)
Definition called (w : World) (call : RepoCall) : World :=
  {| docs := docs w; outage := outage w; journal := journal w ++ [call] |}.

(** A form submission: the parsed body of a request with the two fields. *)
Definition form (title body : JsValue) : gmap string JsValue :=
  {[ "title" := title; "body" := body ]}.

(** A request for [method] on [/posts/<segs>] as Node hands it over. *)
Definition request (m : string) (segs : list jsstring)
  (q b : gmap string JsValue) : Request :=
  {| method := js m; originalMethod := None; path := segs;
     query := q; body := b; params_id := [] |}.

(** A store holding one post, used in the examples. *)
Definition sampleId : jsstring := js "507f1f77bcf86cd799439011".

Definition sampleWorld : World :=
  {| docs := {[ sampleId := {| doc_title := js "Hello";
                               doc_body := js "First post" |} ]};
     outage := None;
     journal := [] |}.

(** Submissions used in the examples: a title of spaces only, and a
    well-formed one with white space around the title. *)
Definition blankTitleForm : gmap string JsValue :=
  form (JString (js "   ")) (JString (js " hello ")).

Definition goodForm : gmap string JsValue :=
  form (JString (js " New title ")) (JString (js "New body")).

(** A submission whose body has 10001 characters. *)
Definition longBodyForm : gmap string JsValue :=
  form (JString (js "Title")) (JString (replicate (N.to_nat 10001) 97%N)).

(** An id no post of [sampleWorld] has. *)
Definition otherId : jsstring := js "507f191e810c19729de860ea".

(** [req.params.id] as the router sets it, for a handler run on its own. *)
Definition withId (id : jsstring) (b : gmap string JsValue) : Request :=
  {| method := js "PUT"; originalMethod := Some (js "PUT"); path := [id];
     query := ∅; body := b; params_id := id |}.

(** The normalized value of a raw field, in the words of the spec: the
    trimmed text for a text value, the empty text for anything else. *)
Definition normalized (v : JsValue) : jsstring :=
  match v with
  | JString s => trim s
  | _ => []
  end.

(** The world after the server has answered the requests in turn. *)
Fixpoint serve (marker : jsstring) (reqs : list Request) (w : World) : World :=
  match reqs with
  | [] => w
  | req :: rest =>
      serve marker rest
        match app marker req w with
        | Some (_, w') => w'
        | None => w
        end
  end.

Definition emptyWorld : World :=
  {| docs := ∅; outage := None; journal := [] |}.

(** ** Vocabulary of the further statements *)

(** What a handler's [catch] block puts before the message of the error
    it caught; [showNewPostForm] and the fallback of [/:id] have none. *)
Definition errorPrefix (h : Handler) : option jsstring :=
  match h with
  | HGetAllPosts => Some (js "Error fetching posts: ")
  | HGetPostById => Some (js "Error fetching post: ")
  | HCreatePost => Some (js "Error creating post: ")
  | HDeletePost => Some (js "Error deleting post: ")
  | HShowEditForm => Some (js "Error: ")
  | HUpdatePost => Some (js "Error updating post: ")
  | HShowNewPostForm | HFallbackPost => None
  end.

(** A collection as the two write handlers leave it: every stored title
    and body is a non-empty string with no white space at either end,
    and a title has at most 200 code units. *)
Definition tidy (d : gmap jsstring Doc) : Prop :=
  ∀ id doc, d !! id = Some doc →
    doc_title doc ≠ [] ∧ doc_body doc ≠ []
    ∧ trim (doc_title doc) = doc_title doc
    ∧ trim (doc_body doc) = doc_body doc
    ∧ (jslength (doc_title doc) <= 200)%N.

(** One post as the two write handlers store it: the condition [tidy]
    asks of every post. *)
Definition tidyPost (doc : Doc) : Prop :=
  doc_title doc ≠ [] ∧ doc_body doc ≠ []
  ∧ trim (doc_title doc) = doc_title doc
  ∧ trim (doc_body doc) = doc_body doc
  ∧ (jslength (doc_title doc) <= 200)%N.

(** The entry of the list view for a stored post. *)
Definition indexEntry (marker : jsstring) (kv : jsstring * Doc) : PostExtras :=
  {| x_id := kv.1;
     x_title := doc_title kv.2;
     x_body := doc_body kv.2;
     x_url := js "/posts/" ++ kv.1;
     x_summary := BlogPost.computeSummary marker (doc_body kv.2) (Some 50%nat) |}.

(** [sampleWorld] with the store out of reach. *)
Definition downWorld : World :=
  {| docs := docs sampleWorld;
     outage := Some (js "connect ECONNREFUSED");
     journal := [] |}.

(** The handlers that only read the collection. *)
Definition readOnly (h : Handler) : bool :=
  match h with
  | HGetAllPosts | HShowNewPostForm | HGetPostById | HShowEditForm
  | HFallbackPost => true
  | HCreatePost | HUpdatePost | HDeletePost => false
  end.

(** Unfold a handler down to the store. *)
Ltac run_handler :=
  unfold getAllPosts, getPostById, showNewPostForm, showEditForm, deletePost,
    fallbackPost, tryCatch, bind, ret, BlogPost.find, BlogPost.findById,
    BlogPost.findByIdAndDelete, repo.

(** * Properties *)

(** ** Strings *)

Lemma truthy_nil (s : jsstring) : truthy s = false ↔ s = [].
Proof. destruct s; simpl; split; congruence. Qed.

Lemma truthy_cons (s : jsstring) : truthy s = true ↔ s ≠ [].
Proof. destruct s; simpl; split; congruence. Qed.

Lemma blank_app (a b : jsstring) : blank (a ++ b) = blank a && blank b.
Proof. unfold blank. apply forallb_app. Qed.

Lemma blank_reverse (s : jsstring) : blank (reverse s) = blank s.
Proof.
  induction s as [|c s IH]; [done|].
  rewrite reverse_cons, blank_app, IH. simpl.
  rewrite andb_true_r. apply andb_comm.
Qed.

(** What [trimStart] leaves is empty or starts with a character that is
    not white space. *)
Lemma trimStart_head (s : jsstring) c rest :
  trimStart s = c :: rest → isWhiteSpace c = false.
Proof.
  induction s as [|d s IH]; simpl; [done|].
  destruct (isWhiteSpace d) eqn:Hd; [done|].
  intros [= <- _]. done.
Qed.

Lemma trimStart_nil (s : jsstring) : trimStart s = [] ↔ blank s = true.
Proof.
  induction s as [|d s IH]; simpl; [done|].
  destruct (isWhiteSpace d); simpl; [done|].
  split; discriminate.
Qed.

Lemma trimStart_not_blank (s : jsstring) :
  trimStart s ≠ [] → blank (trimStart s) = false.
Proof.
  destruct (trimStart s) as [|c rest] eqn:E; [done|].
  intros _. simpl. by rewrite (trimStart_head _ _ _ E).
Qed.

Lemma trimStart_blank_iff (s : jsstring) :
  blank (trimStart s) = blank s.
Proof.
  induction s as [|d s IH]; simpl; [done|].
  destruct (isWhiteSpace d) eqn:Hd; simpl; [done|]. by rewrite Hd.
Qed.

Lemma trimEnd_nil (s : jsstring) : trimEnd s = [] ↔ blank s = true.
Proof.
  unfold trimEnd. rewrite <- (blank_reverse s), <- trimStart_nil.
  split.
  - intros H. apply (f_equal reverse) in H.
    by rewrite reverse_involutive in H.
  - by intros ->.
Qed.

(** [trim] gives the empty string exactly on blank strings. *)
Lemma trim_nil (s : jsstring) : trim s = [] ↔ blank s = true.
Proof. unfold trim. by rewrite trimEnd_nil, trimStart_blank_iff. Qed.

(** A trimmed string that is not empty is not blank. *)
Lemma trim_not_blank (s : jsstring) : trim s ≠ [] → blank (trim s) = false.
Proof.
  unfold trim, trimEnd. intros H.
  rewrite blank_reverse. apply trimStart_not_blank.
  intros E. apply H. by rewrite E.
Qed.

Lemma sanitize_string (s : jsstring) : sanitize (JString s) = trim s.
Proof. done. Qed.

Lemma sanitize_other (v : JsValue) :
  typeof v ≠ "string" → sanitize v = [].
Proof. destruct v; simpl; done. Qed.

(** Whatever the raw value, a sanitized field is empty or not blank. *)
Lemma sanitize_not_blank (v : JsValue) :
  sanitize v ≠ [] → blank (sanitize v) = false.
Proof.
  destruct v; try done. rewrite sanitize_string. apply trim_not_blank.
Qed.

(** A value that is absent, not a string, or a blank string sanitizes to
    the empty string, and only those do. *)
Lemma sanitize_nil (v : JsValue) :
  sanitize v = [] ↔ typeof v ≠ "string" ∨ ∃ s, v = JString s ∧ blank s = true.
Proof.
  destruct v; simpl; try (split; [intros _; by left | done]).
  rewrite sanitize_string, trim_nil. split.
  - intros H. right. eauto.
  - intros [H|(s' & [= <-] & H)]; done.
Qed.

(** ** Validation *)

Lemma msg_title_body : Msg.title_required ≠ Msg.body_required.
Proof. by vm_compute. Qed.
Lemma msg_title_long : Msg.title_required ≠ Msg.title_too_long.
Proof. by vm_compute. Qed.
Lemma msg_title_blong : Msg.title_required ≠ Msg.body_too_long.
Proof. by vm_compute. Qed.
Lemma msg_body_long : Msg.body_required ≠ Msg.title_too_long.
Proof. by vm_compute. Qed.
Lemma msg_body_blong : Msg.body_required ≠ Msg.body_too_long.
Proof. by vm_compute. Qed.
Lemma msg_long_blong : Msg.title_too_long ≠ Msg.body_too_long.
Proof. by vm_compute. Qed.

Lemma createErrors_fires (t b : jsstring) :
  createErrors t b =
    fires (negb (truthy t)) Msg.title_required ++
    fires (negb (truthy b)) Msg.body_required ++
    fires (truthy t && (200 <? jslength t)%N) Msg.title_too_long ++
    fires (truthy b && (10000 <? jslength b)%N) Msg.body_too_long.
Proof.
  unfold createErrors, push, fires.
  destruct (negb (truthy t)), (negb (truthy b)),
    (truthy t && (200 <? jslength t)%N),
    (truthy b && (10000 <? jslength b)%N); reflexivity.
Qed.

Lemma updateErrors_fires (t b : jsstring) :
  updateErrors t b =
    fires (negb (truthy t)) Msg.title_required ++
    fires (negb (truthy b)) Msg.body_required ++
    fires (truthy t && (200 <? jslength t)%N) Msg.title_too_long.
Proof.
  unfold updateErrors, push, fires.
  destruct (negb (truthy t)), (negb (truthy b)),
    (truthy t && (200 <? jslength t)%N); reflexivity.
Qed.

Lemma elem_of_fires (c : bool) (m x : jsstring) :
  x ∈ fires c m ↔ c = true ∧ x = m.
Proof.
  destruct c; simpl.
  - rewrite list_elem_of_singleton. split; [by intros -> | by intros [_ ->]].
  - rewrite elem_of_nil. split; [done | by intros [? _]].
Qed.

Lemma long_truthy (s : jsstring) (n : N) :
  truthy s && (n <? jslength s)%N = true ↔ (n < jslength s)%N.
Proof.
  rewrite andb_true_iff, N.ltb_lt. split; [tauto|].
  intros H. split; [|done]. destruct s; [|done].
  unfold jslength in H. simpl in H. lia.
Qed.

Lemma hasErrors_true (errors : list jsstring) :
  hasErrors errors = true ↔ errors ≠ [].
Proof.
  unfold hasErrors. rewrite N.ltb_lt.
  destruct errors; simpl; split; intros; (done || lia).
Qed.

Lemma hasErrors_false (errors : list jsstring) :
  hasErrors errors = false ↔ errors = [].
Proof.
  unfold hasErrors. rewrite N.ltb_ge.
  destruct errors; simpl; split; intros; (done || lia).
Qed.

Lemma createErrors_nil (t b : jsstring) :
  createErrors t b = [] →
  t ≠ [] ∧ b ≠ [] ∧ (jslength t <= 200)%N ∧ (jslength b <= 10000)%N.
Proof.
  rewrite createErrors_fires. unfold fires.
  destruct (truthy t) eqn:Ht, (truthy b) eqn:Hb,
    (200 <? jslength t)%N eqn:Hlt, (10000 <? jslength b)%N eqn:Hlb;
    simpl; try discriminate.
  intros _. apply truthy_cons in Ht, Hb. apply N.ltb_ge in Hlt, Hlb. done.
Qed.

Lemma updateErrors_nil (t b : jsstring) :
  updateErrors t b = [] → t ≠ [] ∧ b ≠ [] ∧ (jslength t <= 200)%N.
Proof.
  rewrite updateErrors_fires. unfold fires.
  destruct (truthy t) eqn:Ht, (truthy b) eqn:Hb,
    (200 <? jslength t)%N eqn:Hlt; simpl; try discriminate.
  intros _. apply truthy_cons in Ht, Hb. apply N.ltb_ge in Hlt. done.
Qed.

Lemma createErrors_missing (t b : jsstring) :
  t = [] ∨ b = [] → createErrors t b ≠ [].
Proof. intros H E. apply createErrors_nil in E. tauto. Qed.

Lemma updateErrors_missing (t b : jsstring) :
  t = [] ∨ b = [] → updateErrors t b ≠ [].
Proof. intros H E. apply updateErrors_nil in E. tauto. Qed.

Lemma sanitize_string_inv (v : JsValue) :
  sanitize v ≠ [] → ∃ s, v = JString s ∧ sanitize v = trim s.
Proof. destruct v; try done. intros _. by eexists. Qed.

Lemma fires_sublist (c : bool) (m : jsstring) (l k : list jsstring) :
  sublist l k → sublist (fires c m ++ l) (m :: k).
Proof.
  destruct c; simpl; intros H; [by apply sublist_skip | by apply sublist_cons].
Qed.

(** C1. On the create path every rule is evaluated on its own: for all
    raw [title] and [body] the error list is the concatenation, in rule
    order, of the messages of the rules that hold, so each of the four
    messages is in the list exactly when its rule holds, the list is a
    subsequence of the four messages in rule order, and nothing else is
    ever in it; and each of the four messages is produced by some input. *)
Theorem create_validation_accumulates :
  (∀ title body : JsValue,
     let t := sanitize title in
     let b := sanitize body in
     let errors := createErrors t b in
     errors =
       fires (negb (truthy t)) Msg.title_required ++
       fires (negb (truthy b)) Msg.body_required ++
       fires (truthy t && (200 <? jslength t)%N) Msg.title_too_long ++
       fires (truthy b && (10000 <? jslength b)%N) Msg.body_too_long
     ∧ (Msg.title_required ∈ errors ↔ t = [])
     ∧ (Msg.body_required ∈ errors ↔ b = [])
     ∧ (Msg.title_too_long ∈ errors ↔ (200 < jslength t)%N)
     ∧ (Msg.body_too_long ∈ errors ↔ (10000 < jslength b)%N)
     ∧ sublist errors Msg.all
     ∧ (∀ m, m ∈ errors → m ∈ Msg.all))
  ∧ (∀ m, m ∈ Msg.all →
       ∃ title body : JsValue,
         m ∈ createErrors (sanitize title) (sanitize body)).
Proof.
  pose proof msg_title_body. pose proof msg_title_long.
  pose proof msg_title_blong. pose proof msg_body_long.
  pose proof msg_body_blong. pose proof msg_long_blong.
  split.
  - intros title body t b errors.
    assert (Heq := createErrors_fires t b). fold errors in Heq.
    assert (Hsub : sublist errors Msg.all).
    { rewrite Heq. unfold Msg.all.
      repeat apply fires_sublist.
      rewrite <- (app_nil_r (fires _ _)). apply fires_sublist. constructor. }
    split; [exact Heq|].
    rewrite Heq, !elem_of_app, !elem_of_fires, !long_truthy,
      !negb_true_iff, !truthy_nil.
    rewrite <- Heq.
    split; [|split; [|split; [|split; [|split]]]];
      try (clear Heq Hsub; intuition congruence).
    + exact Hsub.
    + intros m Hm. eapply elem_of_sublist; [exact Hm | exact Hsub].
  - intros m Hm. unfold Msg.all in Hm.
    rewrite !elem_of_cons, elem_of_nil in Hm.
    destruct Hm as [->|[->|[->|[->|[]]]]].
    + exists JUndefined, JUndefined. by vm_compute; left.
    + exists JUndefined, JUndefined. vm_compute. right; left.
    + exists (JString (replicate 201 65%N)), JUndefined.
      vm_compute. right; left.
    + exists JUndefined, (JString (replicate (N.to_nat 10001) 65%N)).
      vm_compute. right; left.
Qed.

(** ** The two write handlers, case by case *)

Section WriteHandlers.

Variables (req : Request) (w : World).

Let t : jsstring := sanitize (field (body req) "title").
Let b : jsstring := sanitize (field (body req) "body").

Lemma createPost_rejected :
  createErrors t b ≠ [] →
  createPost req w =
    (Normal (Render 400 "new" (NewLocals (createErrors t b) t b)), w).
Proof.
  intros H%hasErrors_true. unfold createPost, tryCatch.
  fold t b. by rewrite H.
Qed.

Lemma createPost_saved :
  createErrors t b = [] → outage w = None →
  createPost req w =
    (Normal (Redirect (js "/posts/" ++ BlogPost.newId (docs w))),
     {| docs := <[BlogPost.newId (docs w) :=
                    {| doc_title := t; doc_body := b |}]> (docs w);
        outage := None;
        journal := journal w ++ [CallSave t b] |}).
Proof.
  intros H%hasErrors_false Hup. unfold createPost, tryCatch.
  fold t b. rewrite H.
  unfold bind, BlogPost.save, repo. rewrite Hup. reflexivity.
Qed.

Lemma createPost_outage msg :
  createErrors t b = [] → outage w = Some msg →
  createPost req w =
    (Normal (Send 500 (js "Error creating post: " ++ msg)),
     called w (CallSave t b)).
Proof.
  intros H%hasErrors_false Hdown. unfold createPost, tryCatch.
  fold t b. rewrite H.
  unfold bind, BlogPost.save, repo, called. rewrite Hdown. reflexivity.
Qed.

Lemma updatePost_rejected :
  updateErrors t b ≠ [] →
  updatePost req w =
    (Normal (Render 400 "edit"
               (EditLocals (Some (updateErrors t b)) (params_id req) t b)),
     w).
Proof.
  intros H%hasErrors_true. unfold updatePost, tryCatch.
  fold t b. by rewrite H.
Qed.

Lemma updatePost_updated old :
  updateErrors t b = [] → outage w = None →
  docs w !! params_id req = Some old →
  updatePost req w =
    (Normal (Redirect (js "/posts/" ++ params_id req)),
     {| docs := <[params_id req :=
                    {| doc_title := t; doc_body := b |}]> (docs w);
        outage := None;
        journal :=
          journal w ++ [CallFindByIdAndUpdate (params_id req) t b] |}).
Proof.
  intros H%hasErrors_false Hup Hold. unfold updatePost, tryCatch.
  fold t b. rewrite H.
  unfold bind, BlogPost.findByIdAndUpdate, repo. rewrite Hup, Hold.
  reflexivity.
Qed.

Lemma updatePost_not_found :
  updateErrors t b = [] → outage w = None →
  docs w !! params_id req = None →
  updatePost req w =
    (Normal (Send 404 (js "Post not found")),
     called w (CallFindByIdAndUpdate (params_id req) t b)).
Proof.
  intros H%hasErrors_false Hup Hnone. unfold updatePost, tryCatch, called.
  fold t b. rewrite H.
  unfold bind, BlogPost.findByIdAndUpdate, repo. rewrite Hup, Hnone.
  reflexivity.
Qed.

Lemma updatePost_outage msg :
  updateErrors t b = [] → outage w = Some msg →
  updatePost req w =
    (Normal (Send 500 (js "Error updating post: " ++ msg)),
     called w (CallFindByIdAndUpdate (params_id req) t b)).
Proof.
  intros H%hasErrors_false Hdown. unfold updatePost, tryCatch.
  fold t b. rewrite H.
  unfold bind, BlogPost.findByIdAndUpdate, repo, called. rewrite Hdown.
  reflexivity.
Qed.

End WriteHandlers.

Lemma newId_fresh (d : gmap jsstring Doc) : d !! BlogPost.newId d = None.
Proof.
  apply not_elem_of_dom. unfold BlogPost.newId. apply is_fresh.
Qed.

(** ** Rejected submissions *)

(** C4. A submission with a non-empty error list changes nothing: both
    [createPost] and [updatePost] answer 400 with the form view holding
    the error list, and hand back the world they were given, collection
    and journal of repository calls alike. *)
Theorem validation_failure_is_atomic (req : Request) (w : World) :
  let t := sanitize (field (body req) "title") in
  let b := sanitize (field (body req) "body") in
  (createErrors t b ≠ [] →
     createPost req w =
       (Normal (Render 400 "new" (NewLocals (createErrors t b) t b)), w))
  ∧ (updateErrors t b ≠ [] →
       updatePost req w =
         (Normal (Render 400 "edit"
                    (EditLocals (Some (updateErrors t b))
                       (params_id req) t b)), w)).
Proof.
  intros t b. split.
  - apply createPost_rejected.
  - apply updatePost_rejected.
Qed.

Lemma validation_failure_is_atomic_witness :
  createPost (withId sampleId blankTitleForm) sampleWorld =
    (Normal (Render 400 "new"
               (NewLocals [Msg.title_required] [] (js "hello"))),
     sampleWorld)
  ∧ updatePost (withId sampleId blankTitleForm) sampleWorld =
      (Normal (Render 400 "edit"
                 (EditLocals (Some [Msg.title_required]) sampleId []
                    (js "hello"))),
       sampleWorld).
Proof.
  destruct (validation_failure_is_atomic
              (withId sampleId blankTitleForm) sampleWorld) as [Hc Hu].
  split.
  - apply Hc. vm_compute. discriminate.
  - apply Hu. vm_compute. discriminate.
Defined.

(** C5. An update with invalid input is answered 400 with the edit view
    (errors, the id of the request, the sanitized title and body) and no
    repository call is made, so the existence of the target is never
    looked at: in particular the answer is 400 when no post has the id. *)
Theorem invalid_update_answers_400_without_lookup (req : Request) (w : World) :
  let t := sanitize (field (body req) "title") in
  let b := sanitize (field (body req) "body") in
  updateErrors t b ≠ [] →
  updatePost req w =
    (Normal (Render 400 "edit"
               (EditLocals (Some (updateErrors t b)) (params_id req) t b)),
     w)
  ∧ journal (updatePost req w).2 = journal w
  ∧ (docs w !! params_id req = None →
       ∃ resp, (updatePost req w).1 = Normal resp
               ∧ statusCode resp = 400%N ∧ statusCode resp ≠ 404%N).
Proof.
  intros t b H.
  pose proof (updatePost_rejected req w H) as E. fold t b in E.
  rewrite E. split; [done|]. split; [done|].
  intros _. eexists. split; [reflexivity|]. by split.
Qed.

Lemma invalid_update_answers_400_without_lookup_witness :
  docs sampleWorld !! otherId = None
  ∧ (updatePost (withId otherId blankTitleForm) sampleWorld).1 =
      Normal (Render 400 "edit"
                (EditLocals (Some [Msg.title_required]) otherId []
                   (js "hello"))).
Proof.
  split; [by vm_compute|].
  assert (H : updateErrors
                (sanitize (field (body (withId otherId blankTitleForm)) "title"))
                (sanitize (field (body (withId otherId blankTitleForm)) "body"))
              ≠ []) by (vm_compute; discriminate).
  destruct (invalid_update_answers_400_without_lookup
              (withId otherId blankTitleForm) sampleWorld H) as [E _].
  rewrite E. reflexivity.
Defined.

(** ** Accepted submissions *)

(** C8. A create whose sanitized title and body pass validation was
    given two strings, and makes exactly one repository call: the
    insertion of the trimmed title and the trimmed body. When the store
    answers, the collection gains exactly that document, under an id no
    document had, and the response is a redirect (302) to [/posts/]
    followed by that id. *)
Theorem valid_create_inserts_once_and_redirects (req : Request) (w : World) :
  let t := sanitize (field (body req) "title") in
  let b := sanitize (field (body req) "body") in
  createErrors t b = [] →
  (∃ rawTitle rawBody,
     field (body req) "title" = JString rawTitle
     ∧ field (body req) "body" = JString rawBody
     ∧ t = trim rawTitle ∧ b = trim rawBody)
  ∧ journal (createPost req w).2 = journal w ++ [CallSave t b]
  ∧ (outage w = None →
       ∃ id,
         docs w !! id = None
         ∧ (createPost req w).1 = Normal (Redirect (js "/posts/" ++ id))
         ∧ statusCode (Redirect (js "/posts/" ++ id)) = 302%N
         ∧ docs (createPost req w).2 =
             <[id := {| doc_title := t; doc_body := b |}]> (docs w)
         ∧ size (docs (createPost req w).2) = S (size (docs w))).
Proof.
  intros t b H. split; [|split].
  - destruct (createErrors_nil t b H) as (Ht & Hb & _).
    destruct (sanitize_string_inv _ Ht) as (rawTitle & E1 & E2).
    destruct (sanitize_string_inv _ Hb) as (rawBody & E3 & E4).
    by exists rawTitle, rawBody.
  - destruct (outage w) as [msg|] eqn:E.
    + by rewrite (createPost_outage req w msg H E).
    + by rewrite (createPost_saved req w H E).
  - intros E. exists (BlogPost.newId (docs w)).
    rewrite (createPost_saved req w H E). simpl.
    pose proof (newId_fresh (docs w)) as Hfresh.
    repeat split; try done.
    by apply map_size_insert_None.
Qed.

Lemma valid_create_inserts_once_and_redirects_witness :
  journal (createPost (request "POST" [js "new"] ∅ goodForm) sampleWorld).2 =
    [CallSave (js "New title") (js "New body")].
Proof.
  assert (H : createErrors
                (sanitize (field (body (request "POST" [js "new"] ∅ goodForm))
                             "title"))
                (sanitize (field (body (request "POST" [js "new"] ∅ goodForm))
                             "body")) = []) by (vm_compute; reflexivity).
  destruct (valid_create_inserts_once_and_redirects
              (request "POST" [js "new"] ∅ goodForm) sampleWorld H)
    as (_ & E & _).
  rewrite E. reflexivity.
Defined.

(** C2. The update path has no upper bound on the body. Whenever the
    sanitized body is longer than 10000 and the sanitized title is not
    empty and at most 200 long, [updatePost] finds no error and goes on
    to the store with that body (one [findByIdAndUpdate] call, which
    stores it when the post exists), while [createPost] on the same
    input finds exactly "Body is too long.", answers 400 and leaves the
    world as it was. *)
Theorem update_omits_body_bound (req : Request) (w : World) :
  let t := sanitize (field (body req) "title") in
  let b := sanitize (field (body req) "body") in
  (10000 < jslength b)%N → t ≠ [] → (jslength t <= 200)%N →
  updateErrors t b = []
  ∧ journal (updatePost req w).2 =
      journal w ++ [CallFindByIdAndUpdate (params_id req) t b]
  ∧ (outage w = None → is_Some (docs w !! params_id req) →
       (updatePost req w).1 =
         Normal (Redirect (js "/posts/" ++ params_id req))
       ∧ docs (updatePost req w).2 !! params_id req =
           Some {| doc_title := t; doc_body := b |})
  ∧ createErrors t b = [Msg.body_too_long]
  ∧ createPost req w =
      (Normal (Render 400 "new" (NewLocals [Msg.body_too_long] t b)), w).
Proof.
  intros t b Hb Ht Hlen.
  assert (Htt : truthy t = true) by by apply truthy_cons.
  assert (Hbt : truthy b = true).
  { destruct b; [|done]. unfold jslength in Hb. simpl in Hb. lia. }
  assert (Hlong : (10000 <? jslength b)%N = true) by by apply N.ltb_lt.
  assert (Hshort : (200 <? jslength t)%N = false) by by apply N.ltb_ge.
  assert (Hu : updateErrors t b = []).
  { rewrite updateErrors_fires, Htt, Hbt, Hshort. done. }
  assert (Hc : createErrors t b = [Msg.body_too_long]).
  { rewrite createErrors_fires, Htt, Hbt, Hshort, Hlong. done. }
  split; [exact Hu|]. split; [|split; [|split; [exact Hc|]]].
  - destruct (outage w) as [msg|] eqn:E.
    + by rewrite (updatePost_outage req w msg Hu E).
    + destruct (docs w !! params_id req) as [old|] eqn:Hold.
      * by rewrite (updatePost_updated req w old Hu E Hold).
      * by rewrite (updatePost_not_found req w Hu E Hold).
  - intros E [old Hold].
    rewrite (updatePost_updated req w old Hu E Hold). simpl.
    split; [done|]. apply lookup_insert_eq.
  - pose proof (createPost_rejected req w) as R. fold t b in R.
    rewrite Hc in R. by apply R.
Qed.

Lemma update_omits_body_bound_witness :
  updateErrors
    (sanitize (field (body (withId sampleId longBodyForm)) "title"))
    (sanitize (field (body (withId sampleId longBodyForm)) "body")) = []
  ∧ createErrors
      (sanitize (field (body (withId sampleId longBodyForm)) "title"))
      (sanitize (field (body (withId sampleId longBodyForm)) "body")) =
      [Msg.body_too_long].
Proof.
  assert (Hb : (10000 <
                jslength (sanitize (field (body (withId sampleId longBodyForm))
                                      "body")))%N)
    by (vm_compute; reflexivity).
  assert (Ht : sanitize (field (body (withId sampleId longBodyForm)) "title")
               ≠ []) by (vm_compute; discriminate).
  assert (Hlen : (jslength
                    (sanitize (field (body (withId sampleId longBodyForm))
                                 "title")) <= 200)%N)
    by (vm_compute; discriminate).
  destruct (update_omits_body_bound (withId sampleId longBodyForm)
              sampleWorld Hb Ht Hlen) as (Hu & _ & _ & Hc & _).
  split; [exact Hu | exact Hc].
Defined.

Lemma sanitize_normalized (v : JsValue) : sanitize v = normalized v.
Proof. by destruct v. Qed.

(** C10. When create or update rejects a submission, the title and body
    in the 400 form view are the normalized values: the trimmed string
    for a string field, the empty string for a field that is absent or
    not a string. They are not the raw input: a title of three spaces
    comes back empty and the body " hello " comes back as "hello". *)
Theorem rejected_form_echoes_normalized_values :
  (∀ (req : Request) (w : World),
     let title := field (body req) "title" in
     let body' := field (body req) "body" in
     (createErrors (sanitize title) (sanitize body') ≠ [] →
        ∃ errors,
          createPost req w =
            (Normal (Render 400 "new"
                       (NewLocals errors (normalized title)
                          (normalized body'))), w))
     ∧ (updateErrors (sanitize title) (sanitize body') ≠ [] →
          ∃ errors,
            updatePost req w =
              (Normal (Render 400 "edit"
                         (EditLocals (Some errors) (params_id req)
                            (normalized title) (normalized body'))), w)))
  ∧ (∀ s, normalized (JString s) = trim s)
  ∧ normalized JUndefined = []
  ∧ (∀ v, typeof v ≠ "string" → normalized v = [])
  ∧ (createPost (withId sampleId blankTitleForm) sampleWorld).1 =
      Normal (Render 400 "new"
                (NewLocals [Msg.title_required] [] (js "hello")))
  ∧ field blankTitleForm "title" = JString (js "   ")
  ∧ field blankTitleForm "body" = JString (js " hello ")
  ∧ js "   " ≠ [] ∧ js " hello " ≠ js "hello".
Proof.
  split; [|repeat split; try done].
  - intros req w title body'. rewrite <- !sanitize_normalized. split.
    + intros H. eexists. by apply createPost_rejected.
    + intros H. eexists. by apply updatePost_rejected.
  - intros v. by destruct v.
Qed.

Lemma rejected_form_echoes_normalized_values_witness :
  ∃ errors,
    updatePost (withId otherId blankTitleForm) sampleWorld =
      (Normal (Render 400 "edit"
                 (EditLocals (Some errors) otherId
                    (normalized (JString (js "   ")))
                    (normalized (JString (js " hello "))))), sampleWorld).
Proof.
  destruct rejected_form_echoes_normalized_values as [H _].
  destruct (H (withId otherId blankTitleForm) sampleWorld) as [_ Hu].
  apply Hu. vm_compute. discriminate.
Defined.

(** ** Posts that do not exist *)

Lemma findById_up (id : jsstring) (w : World) :
  outage w = None →
  BlogPost.findById id w =
    (Normal (toPost id <$> docs w !! id), called w (CallFindById id)).
Proof.
  intros E. unfold BlogPost.findById, repo, called. by rewrite E.
Qed.

Lemma getPostById_not_found (req : Request) (w : World) :
  outage w = None → docs w !! params_id req = None →
  getPostById req w =
    (Normal (Send 404 (js "Post not found")),
     called w (CallFindById (params_id req))).
Proof.
  intros E H. unfold getPostById, tryCatch, bind.
  by rewrite (findById_up _ _ E), H.
Qed.

Lemma showEditForm_not_found (req : Request) (w : World) :
  outage w = None → docs w !! params_id req = None →
  showEditForm req w =
    (Normal (Send 404 (js "Post not found")),
     called w (CallFindById (params_id req))).
Proof.
  intros E H. unfold showEditForm, tryCatch, bind.
  by rewrite (findById_up _ _ E), H.
Qed.

Lemma deletePost_not_found (req : Request) (w : World) :
  outage w = None → docs w !! params_id req = None →
  deletePost req w =
    (Normal (Send 404 (js "Post not found")),
     called w (CallFindByIdAndDelete (params_id req))).
Proof.
  intros E H.
  unfold deletePost, tryCatch, bind, BlogPost.findByIdAndDelete, repo, called.
  by rewrite E, H.
Qed.

Lemma deletePost_deleted (req : Request) (w : World) (old : Doc) :
  outage w = None → docs w !! params_id req = Some old →
  deletePost req w =
    (Normal (Redirect (js "/posts/")),
     {| docs := delete (params_id req) (docs w);
        outage := None;
        journal := journal w ++ [CallFindByIdAndDelete (params_id req)] |}).
Proof.
  intros E H.
  unfold deletePost, tryCatch, bind, BlogPost.findByIdAndDelete, repo.
  by rewrite E, H.
Qed.

(** C7. With the store in reach, a request for an id that no post has is
    answered 404 "Post not found" by the show, edit-form and delete
    handlers and, when its input is valid, by the update handler; the
    collection is left as it was. A delete that follows a delete of the
    same id is answered 404 whether or not the first one found a post. *)
Theorem missing_post_answers_404 (req : Request) (w : World) :
  outage w = None → docs w !! params_id req = None →
  let notFound := Normal (Send 404 (js "Post not found")) in
  ((getPostById req w).1 = notFound ∧ docs (getPostById req w).2 = docs w)
  ∧ ((showEditForm req w).1 = notFound
     ∧ docs (showEditForm req w).2 = docs w)
  ∧ ((deletePost req w).1 = notFound ∧ docs (deletePost req w).2 = docs w)
  ∧ (updateErrors (sanitize (field (body req) "title"))
       (sanitize (field (body req) "body")) = [] →
     (updatePost req w).1 = notFound ∧ docs (updatePost req w).2 = docs w)
  ∧ statusCode (Send 404 (js "Post not found")) = 404%N
  ∧ (∀ w0, outage w0 = None →
       (deletePost req (deletePost req w0).2).1 = notFound).
Proof.
  intros E H notFound.
  rewrite (getPostById_not_found req w E H),
    (showEditForm_not_found req w E H), (deletePost_not_found req w E H).
  do 3 (split; [done|]). split; [|split; [done|]].
  - intros Hu. by rewrite (updatePost_not_found req w Hu E H).
  - intros w0 E0.
    destruct (docs w0 !! params_id req) as [old|] eqn:H0.
    + rewrite (deletePost_deleted req w0 old E0 H0).
      rewrite deletePost_not_found; [done|done|]. simpl.
      apply lookup_delete_eq.
    + rewrite (deletePost_not_found req w0 E0 H0).
      by rewrite deletePost_not_found.
Qed.

Lemma missing_post_answers_404_witness :
  (getPostById (withId otherId ∅) sampleWorld).1 =
    Normal (Send 404 (js "Post not found"))
  ∧ (deletePost (withId sampleId ∅)
       (deletePost (withId sampleId ∅) sampleWorld).2).1 =
      Normal (Send 404 (js "Post not found")).
Proof.
  assert (E : outage sampleWorld = None) by reflexivity.
  assert (H : docs sampleWorld !! params_id (withId otherId ∅) = None)
    by (vm_compute; reflexivity).
  split.
  - destruct (missing_post_answers_404 (withId otherId ∅) sampleWorld E H)
      as [[R _] _].
    exact R.
  - assert (H' : docs emptyWorld !! params_id (withId sampleId ∅) = None)
      by (vm_compute; reflexivity).
    destruct (missing_post_answers_404 (withId sampleId ∅) emptyWorld
                eq_refl H') as (_ & _ & _ & _ & _ & R).
    exact (R sampleWorld E).
Defined.

(** ** The stored fields are never blank *)

Lemma noBlankField_insert (d : gmap jsstring Doc) id t b :
  noBlankField d → blank t = false → blank b = false →
  noBlankField (<[id := {| doc_title := t; doc_body := b |}]> d).
Proof.
  intros Hd Ht Hb id' doc. rewrite lookup_insert.
  case_decide; [|by apply Hd].
  intros [= <-]. done.
Qed.

Lemma noBlankField_delete (d : gmap jsstring Doc) id :
  noBlankField d → noBlankField (delete id d).
Proof.
  intros Hd id' doc Hl. apply lookup_delete_Some in Hl as [_ Hl].
  by apply (Hd id').
Qed.

Lemma createPost_keeps_noBlankField (req : Request) (w : World) :
  noBlankField (docs w) → noBlankField (docs (createPost req w).2).
Proof.
  intros Hd.
  set (t := sanitize (field (body req) "title")).
  set (b := sanitize (field (body req) "body")).
  destruct (decide (createErrors t b = [])) as [Hok|Hbad].
  - destruct (outage w) as [msg|] eqn:E.
    + by rewrite (createPost_outage req w msg Hok E).
    + rewrite (createPost_saved req w Hok E). simpl.
      apply createErrors_nil in Hok as (Ht & Hb & _).
      apply noBlankField_insert; [done| |]; by apply sanitize_not_blank.
  - by rewrite (createPost_rejected req w Hbad).
Qed.

Lemma updatePost_keeps_noBlankField (req : Request) (w : World) :
  noBlankField (docs w) → noBlankField (docs (updatePost req w).2).
Proof.
  intros Hd.
  set (t := sanitize (field (body req) "title")).
  set (b := sanitize (field (body req) "body")).
  destruct (decide (updateErrors t b = [])) as [Hok|Hbad].
  - destruct (outage w) as [msg|] eqn:E.
    + by rewrite (updatePost_outage req w msg Hok E).
    + destruct (docs w !! params_id req) as [old|] eqn:Hold.
      * rewrite (updatePost_updated req w old Hok E Hold). simpl.
        apply updateErrors_nil in Hok as (Ht & Hb & _).
        apply noBlankField_insert; [done| |]; by apply sanitize_not_blank.
      * by rewrite (updatePost_not_found req w Hok E Hold).
  - by rewrite (updatePost_rejected req w Hbad).
Qed.

(** C6. Create and update preserve the invariant that no stored title or
    body is empty or made of white space only; and a title or body that
    is absent, not a string, or a string that trims to the empty string
    is rejected by both handlers with a 400 form view before any
    repository call is made. *)
Theorem blank_fields_are_never_stored (req : Request) (w : World) :
  let title := field (body req) "title" in
  let body' := field (body req) "body" in
  (noBlankField (docs w) →
     noBlankField (docs (createPost req w).2)
     ∧ noBlankField (docs (updatePost req w).2))
  ∧ (∀ v, v = title ∨ v = body' →
       v = JUndefined ∨ typeof v ≠ "string" ∨ (∃ s, v = JString s ∧ trim s = []) →
       (∃ errors,
          errors ≠ [] ∧
          createPost req w =
            (Normal (Render 400 "new"
                       (NewLocals errors (sanitize title) (sanitize body'))),
             w))
       ∧ (∃ errors,
            errors ≠ [] ∧
            updatePost req w =
              (Normal (Render 400 "edit"
                         (EditLocals (Some errors) (params_id req)
                            (sanitize title) (sanitize body'))), w))).
Proof.
  intros title body'. split.
  - intros Hd. split.
    + by apply createPost_keeps_noBlankField.
    + by apply updatePost_keeps_noBlankField.
  - intros v Hv Hmiss.
    assert (Hnil : sanitize v = []).
    { destruct Hmiss as [->|[H|(s & -> & H)]]; [done| |done].
      by apply sanitize_other. }
    assert (Hone : sanitize title = [] ∨ sanitize body' = []).
    { destruct Hv as [<-|<-]; [by left | by right]. }
    split.
    + exists (createErrors (sanitize title) (sanitize body')).
      pose proof (createErrors_missing _ _ Hone) as Hne.
      split; [done|]. by apply createPost_rejected.
    + exists (updateErrors (sanitize title) (sanitize body')).
      pose proof (updateErrors_missing _ _ Hone) as Hne.
      split; [done|]. by apply updatePost_rejected.
Qed.

Lemma blank_fields_are_never_stored_witness :
  noBlankField (docs (createPost (withId sampleId goodForm) sampleWorld).2)
  ∧ noBlankField (docs (updatePost (withId sampleId goodForm) sampleWorld).2).
Proof.
  destruct (blank_fields_are_never_stored (withId sampleId goodForm)
              sampleWorld) as [H _].
  apply H. intros id doc Hl. unfold sampleWorld in Hl. cbn [docs] in Hl.
  apply lookup_singleton_Some in Hl as [_ <-].
  split; reflexivity.
Defined.

(** ** The summary of a post *)

(** C9. [computeSummary]: a body of at most [maxLength] code units comes
    back as it is, with no marker; a longer one comes back as its first
    [maxLength] code units followed by the marker, so its length is
    [maxLength] plus the marker's and it is a prefix of the body
    followed by the marker; leaving [maxLength] out means 50; and with
    [maxLength = 0] a body that has anything to cut comes back as the
    marker alone (the empty body, whose length is at most 0, falls under
    the first case). The function is total, so no case raises. *)
Theorem computeSummary_truncates (marker body : jsstring) (maxLength : nat) :
  ((length body ≤ maxLength)%nat →
     BlogPost.computeSummary marker body (Some maxLength) = body)
  ∧ ((maxLength < length body)%nat →
       BlogPost.computeSummary marker body (Some maxLength) =
         take maxLength body ++ marker
       ∧ length (BlogPost.computeSummary marker body (Some maxLength)) =
           (maxLength + length marker)%nat
       ∧ take maxLength body `prefix_of` body
       ∧ length (take maxLength body) = maxLength)
  ∧ BlogPost.computeSummary marker body None =
      BlogPost.computeSummary marker body (Some 50)
  ∧ (body ≠ [] → BlogPost.computeSummary marker body (Some 0) = marker).
Proof.
  unfold BlogPost.computeSummary. simpl.
  split; [|split; [|split]].
  - intros H. by rewrite (proj2 (Nat.leb_le _ _) H).
  - intros H. rewrite (proj2 (Nat.leb_gt _ _) H).
    split; [done|]. split; [|split].
    + rewrite length_app, length_take. lia.
    + apply prefix_take.
    + rewrite length_take. lia.
  - done.
  - intros H. destruct body; [done|]. reflexivity.
Qed.

Lemma computeSummary_truncates_witness :
  BlogPost.computeSummary (js "...") (js "abc") (Some 5) = js "abc"
  ∧ BlogPost.computeSummary (js "...") (js "abcdef") (Some 2) = js "ab..."
  ∧ BlogPost.computeSummary (js "...") (js "abc") (Some 0) = js "...".
Proof.
  destruct (computeSummary_truncates (js "...") (js "abc") 5) as [H1 _].
  destruct (computeSummary_truncates (js "...") (js "abcdef") 2)
    as (_ & H2 & _).
  destruct (computeSummary_truncates (js "...") (js "abc") 0)
    as (_ & _ & _ & H3).
  split; [|split].
  - apply H1. vm_compute. lia.
  - destruct H2 as [H2 _]; [vm_compute; lia|]. rewrite H2. reflexivity.
  - apply H3. discriminate.
Defined.

(** ** Which requests reach the update handler *)


Lemma updatePost_ext (req req' : Request) :
  body req = body req' → params_id req = params_id req' →
  updatePost req = updatePost req'.
Proof. unfold updatePost. by intros -> ->. Qed.

Lemma field_form_title (title body' : JsValue) :
  field (form title body') "title" = title.
Proof. unfold field, form. by rewrite lookup_insert_eq. Qed.

Lemma field_form_body (title body' : JsValue) :
  field (form title body') "body" = body'.
Proof.
  unfold field, form. rewrite lookup_insert_ne by done.
  by rewrite lookup_singleton_eq.
Qed.



(** Lower-casing sees through an upper-casing that gave ASCII. *)
Lemma lowerUnit_upperUnit (c : N) :
  (upperUnit c < 128)%N → lowerUnit (upperUnit c) = lowerUnit c.
Proof.
  unfold upperUnit, lowerUnit.
  destruct ((97 <=? c) && (c <=? 122))%N eqn:Hlow.
  - apply andb_true_iff in Hlow as [H1%N.leb_le H2%N.leb_le]. intros _.
    assert (((65 <=? c - 32) && (c - 32 <=? 90))%N = true) as ->.
    { apply andb_true_iff. split; apply N.leb_le; lia. }
    assert (((65 <=? c) && (c <=? 90))%N = false) as ->.
    { apply andb_false_iff. right. apply N.leb_gt. lia. }
    assert ((c =? 8490)%N = false) as -> by (apply N.eqb_neq; lia).
    lia.
  - done.
Qed.

Lemma toLowerCase_toUpperCase (m : jsstring) :
  Forall (λ c, (c < 128)%N) (toUpperCase m) →
  toLowerCase (toUpperCase m) = toLowerCase m.
Proof.
  unfold toLowerCase, toUpperCase. induction m as [|c m IH]; [done|].
  rewrite !fmap_cons. intros [Hc Hm]%Forall_cons.
  by rewrite (lowerUnit_upperUnit c Hc), (IH Hm).
Qed.

Lemma supports_put (m : jsstring) :
  toUpperCase m = js "PUT" → supports (JString m) = true.
Proof.
  intros H. unfold supports. cbn [jsTruthy typeof].
  assert (truthy m = true) as ->.
  { destruct m; [|done]. vm_compute in H. discriminate. }
  rewrite <- toLowerCase_toUpperCase, H; [by vm_compute|].
  rewrite H. apply (bool_decide_unpack _). by vm_compute.
Qed.

Lemma post_is_examined : bool_decide (js "POST" ∈ [js "POST"]) = true.
Proof. by vm_compute. Qed.


(** A request that arrived as POST, after the query-string layer: only
    its method can have changed. *)
Lemma query_layer_post (segs : list jsstring) (q b : gmap string JsValue) :
  ∃ m1,
    methodOverride queryGetter (request "POST" segs q b) =
      {| method := m1; originalMethod := Some (js "POST"); path := segs;
         query := q; body := b; params_id := [] |}
    ∧ (q !! "_method" = None → m1 = js "POST")
    ∧ (∀ m, q !! "_method" = Some (JString m) → toUpperCase m = js "PUT" →
         m1 = js "PUT").
Proof.
  unfold methodOverride, request. cbn [originalMethod method].
  rewrite post_is_examined.
  unfold queryGetter, setOriginalMethod, field. cbn [query method path body
    params_id originalMethod].
  destruct (q !! "_method") as [v|] eqn:Hq; cbn [default from_option id].
  - destruct (jsTruthy v) eqn:Hv.
    + destruct v as [| |bv|n|s|items|props];
        try (eexists; split; [reflexivity|]; split; [done|]; intros m [=]).
      * destruct (supports (JString s)) eqn:Hs.
        -- eexists. split; [reflexivity|]. split; [done|].
           by intros m [= ->] <-.
        -- eexists. split; [reflexivity|]. split; [done|].
           intros m [= ->] Hm. by rewrite (supports_put _ Hm) in Hs.
      * destruct (default JUndefined (head items)) as [| |bv|n|s|items'|props];
          try (eexists; split; [reflexivity|]; split; [done|]; intros m [=]).
        destruct (supports (JString s)); eexists;
          (split; [reflexivity|]; split; [done|]; intros m [=]).
    + assert (supports (JString []) = false) as -> by by vm_compute.
      eexists. split; [reflexivity|]. split; [done|].
      intros m [= ->] Hm. cbn [jsTruthy] in Hv.
      destruct m; [by vm_compute in Hm | done].
  - cbn [jsTruthy].
    assert (supports (JString []) = false) as -> by by vm_compute.
    eexists. split; [reflexivity|]. split; [done|]. intros m [=].
Qed.

Lemma truthy_post : truthy (js "POST") = true.
Proof. reflexivity. Qed.

(** The body layer on a request that arrived as POST and names no
    method in its body: nothing changes. *)
Lemma body_layer_plain m1 (segs : list jsstring) (q b : gmap string JsValue) :
  b !! "_method" = None →
  methodOverride bodyGetter
    {| method := m1; originalMethod := Some (js "POST"); path := segs;
       query := q; body := b; params_id := [] |} =
    {| method := m1; originalMethod := Some (js "POST"); path := segs;
       query := q; body := b; params_id := [] |}.
Proof.
  intros Hb. unfold methodOverride. cbn [originalMethod method].
  rewrite truthy_post, post_is_examined.
  unfold bodyGetter, setOriginalMethod. cbn [body]. by rewrite Hb.
Qed.



Lemma field_delete_method (b : gmap string JsValue) (k : string) :
  k ≠ "_method" → field (delete "_method" b) k = field b k.
Proof. intros H. unfold field. by rewrite lookup_delete_ne. Qed.




(** ** The invariant over the life of the server *)

Lemma runHandler_keeps_noBlankField marker (h : Handler) (req : Request)
  (w : World) :
  noBlankField (docs w) → noBlankField (docs (runHandler marker h req w).2).
Proof.
  intros Hd. destruct h; cbn [runHandler].
  - run_handler. by destruct (outage w).
  - by run_handler.
  - by apply createPost_keeps_noBlankField.
  - run_handler. destruct (outage w); [done|].
    by destruct (docs w !! params_id req).
  - by apply updatePost_keeps_noBlankField.
  - run_handler. destruct (outage w); [done|].
    destruct (docs w !! params_id req); [|done].
    by apply noBlankField_delete.
  - by run_handler.
  - run_handler. destruct (outage w); [done|].
    by destruct (docs w !! params_id req).
Qed.

(** Whatever requests the server answers, starting from a collection
    without blank fields, it never holds one. *)
Lemma served_store_has_no_blank_field marker (reqs : list Request) (w : World) :
  noBlankField (docs w) → noBlankField (docs (serve marker reqs w)).
Proof.
  revert w. induction reqs as [|req reqs IH]; intros w Hd; [done|].
  cbn [serve]. apply IH. unfold app.
  destruct (dispatch _ _ _) as [[h id]|]; [|done].
  by apply runHandler_keeps_noBlankField.
Qed.

Lemma served_from_empty_has_no_blank_field marker (reqs : list Request) :
  noBlankField (docs (serve marker reqs emptyWorld)).
Proof.
  apply served_store_has_no_blank_field. intros id doc Hl.
  cbn [docs emptyWorld] in Hl. by rewrite lookup_empty in Hl.
Qed.

(** * Further properties *)

(** ** Trimming twice *)

Lemma trimStart_fixed (s : jsstring) :
  (∀ c rest, s = c :: rest → isWhiteSpace c = false) → trimStart s = s.
Proof.
  destruct s as [|c rest]; [done|]. intros H. simpl.
  by rewrite (H c rest eq_refl).
Qed.

Lemma trimStart_idemp (s : jsstring) : trimStart (trimStart s) = trimStart s.
Proof.
  apply trimStart_fixed. intros c rest E. by apply (trimStart_head s c rest).
Qed.

Lemma trimEnd_idemp (s : jsstring) : trimEnd (trimEnd s) = trimEnd s.
Proof.
  unfold trimEnd. by rewrite reverse_involutive, trimStart_idemp.
Qed.

Lemma trimStart_snoc (l : jsstring) (c : N) :
  isWhiteSpace c = false → ∃ l', trimStart (l ++ [c]) = l' ++ [c].
Proof.
  intros Hc. induction l as [|d l IH]; simpl.
  - rewrite Hc. by exists [].
  - destruct (isWhiteSpace d); [exact IH|]. by exists (d :: l).
Qed.

(** [trimEnd] keeps a first character that is not white space. *)
Lemma trimEnd_head (c : N) (rest : jsstring) :
  isWhiteSpace c = false → ∃ rest', trimEnd (c :: rest) = c :: rest'.
Proof.
  intros Hc. unfold trimEnd. rewrite reverse_cons.
  destruct (trimStart_snoc (reverse rest) c Hc) as [l' ->].
  exists (reverse l'). by rewrite reverse_app.
Qed.

(** [trim] is idempotent. *)
Lemma trim_idemp (s : jsstring) : trim (trim s) = trim s.
Proof.
  unfold trim. destruct (trimStart s) as [|c rest] eqn:E; [done|].
  pose proof (trimStart_head s c rest E) as Hc.
  destruct (trimEnd_head c rest Hc) as [rest' E'].
  rewrite E'. cbn [trimStart]. rewrite Hc, <- E'. apply trimEnd_idemp.
Qed.

Lemma sanitize_idemp (v : JsValue) :
  sanitize (JString (sanitize v)) = sanitize v.
Proof.
  rewrite sanitize_string. destruct v; try done.
  rewrite sanitize_string. apply trim_idemp.
Qed.

(** ** What the two rule blocks accept *)

Lemma jslength_pos (s : jsstring) : (1 <= jslength s)%N ↔ s ≠ [].
Proof.
  unfold jslength. destruct s; simpl; split; intros; (done || lia).
Qed.

Lemma createErrors_nil_iff (t b : jsstring) :
  createErrors t b = [] ↔
  (1 <= jslength t <= 200)%N ∧ (1 <= jslength b <= 10000)%N.
Proof.
  split.
  - intros (Ht & Hb & H1 & H2)%createErrors_nil.
    apply jslength_pos in Ht, Hb. lia.
  - intros [[Ht H1] [Hb H2]]. apply jslength_pos, truthy_cons in Ht, Hb.
    rewrite createErrors_fires, Ht, Hb.
    by rewrite (proj2 (N.ltb_ge _ _) H1), (proj2 (N.ltb_ge _ _) H2).
Qed.

Lemma updateErrors_nil_iff (t b : jsstring) :
  updateErrors t b = [] ↔ (1 <= jslength t <= 200)%N ∧ (1 <= jslength b)%N.
Proof.
  split.
  - intros (Ht & Hb & H1)%updateErrors_nil.
    apply jslength_pos in Ht, Hb. lia.
  - intros [[Ht H1] Hb]. apply jslength_pos, truthy_cons in Ht, Hb.
    rewrite updateErrors_fires, Ht, Hb.
    by rewrite (proj2 (N.ltb_ge _ _) H1).
Qed.

Lemma sanitize_pos (v : JsValue) :
  (1 <= jslength (sanitize v))%N →
  ∃ s, v = JString s ∧ sanitize v = trim s.
Proof. intros H%jslength_pos. by apply sanitize_string_inv. Qed.

(** X1. The create rules accept a submission exactly when both fields
    are strings, the trimmed title has 1 to 200 code units and the
    trimmed body 1 to 10000: the bounds themselves are accepted. *)
Theorem create_accepts_exactly (title body' : JsValue) :
  createErrors (sanitize title) (sanitize body') = [] ↔
  ∃ rawTitle rawBody,
    title = JString rawTitle ∧ body' = JString rawBody
    ∧ (1 <= jslength (trim rawTitle) <= 200)%N
    ∧ (1 <= jslength (trim rawBody) <= 10000)%N.
Proof.
  rewrite createErrors_nil_iff. split.
  - intros [Ht Hb].
    destruct (sanitize_pos title (proj1 Ht)) as (rawTitle & -> & Et).
    destruct (sanitize_pos body' (proj1 Hb)) as (rawBody & -> & Eb).
    exists rawTitle, rawBody. by rewrite <- Et, <- Eb.
  - by intros (rawTitle & rawBody & -> & -> & Ht & Hb).
Qed.

(** X2. The update rules accept a submission exactly when both fields
    are strings, the trimmed title has 1 to 200 code units and the
    trimmed body is not empty, whatever its length. *)
Theorem update_accepts_exactly (title body' : JsValue) :
  updateErrors (sanitize title) (sanitize body') = [] ↔
  ∃ rawTitle rawBody,
    title = JString rawTitle ∧ body' = JString rawBody
    ∧ (1 <= jslength (trim rawTitle) <= 200)%N
    ∧ (1 <= jslength (trim rawBody))%N.
Proof.
  rewrite updateErrors_nil_iff. split.
  - intros [Ht Hb].
    destruct (sanitize_pos title (proj1 Ht)) as (rawTitle & -> & Et).
    destruct (sanitize_pos body' Hb) as (rawBody & -> & Eb).
    exists rawTitle, rawBody. by rewrite <- Et, <- Eb.
  - by intros (rawTitle & rawBody & -> & -> & Ht & Hb).
Qed.

(** X3. The error list of create is that of update followed, when the
    body is longer than 10000, by "Body is too long.": so update accepts
    whatever create accepts, and the two report the same errors for a
    body of at most 10000 code units. *)
Theorem create_errors_extend_update_errors (t b : jsstring) :
  createErrors t b =
    updateErrors t b ++ fires (10000 <? jslength b)%N Msg.body_too_long
  ∧ (createErrors t b = [] → updateErrors t b = [])
  ∧ ((jslength b <= 10000)%N → createErrors t b = updateErrors t b).
Proof.
  assert (E : createErrors t b =
              updateErrors t b ++
              fires (10000 <? jslength b)%N Msg.body_too_long).
  { rewrite createErrors_fires, updateErrors_fires, <- !app_assoc.
    do 3 f_equal. destruct b; [|done]. reflexivity. }
  split; [exact E|]. split.
  - rewrite E. by intros [H _]%app_eq_nil.
  - intros H. rewrite E, (proj2 (N.ltb_ge _ _) H). apply app_nil_r.
Qed.

(** X4. A field is never reported both as missing and as too long, by
    create or by update, so no error list has more than two messages. *)
Theorem required_excludes_too_long (t b : jsstring) :
  ¬ (Msg.title_required ∈ createErrors t b
     ∧ Msg.title_too_long ∈ createErrors t b)
  ∧ ¬ (Msg.body_required ∈ createErrors t b
       ∧ Msg.body_too_long ∈ createErrors t b)
  ∧ ¬ (Msg.title_required ∈ updateErrors t b
       ∧ Msg.title_too_long ∈ updateErrors t b)
  ∧ (length (createErrors t b) ≤ 2)%nat
  ∧ (length (updateErrors t b) ≤ 2)%nat.
Proof.
  pose proof msg_title_body. pose proof msg_title_long.
  pose proof msg_title_blong. pose proof msg_body_long.
  pose proof msg_body_blong. pose proof msg_long_blong.
  rewrite createErrors_fires, updateErrors_fires.
  destruct (truthy t), (truthy b), (200 <? jslength t)%N,
    (10000 <? jslength b)%N; simpl;
    rewrite ?elem_of_cons, ?elem_of_nil;
    (split; [|split; [|split; [|split]]]); try lia; intuition congruence.
Qed.

(** ** A submission is seen through its sanitized fields only *)

(** X5. Both write handlers read a submission only through its sanitized
    title and body: submitting again the values a 400 form echoed (or
    the values that were stored) gets the very same answer and effect. *)
Theorem resubmitting_the_echo_changes_nothing (req : Request) (w : World) :
  let t := sanitize (field (body req) "title") in
  let b := sanitize (field (body req) "body") in
  let again := setBody (form (JString t) (JString b)) req in
  createPost again w = createPost req w
  ∧ updatePost again w = updatePost req w.
Proof.
  intros t b again. unfold createPost, updatePost, again.
  cbn [body setBody params_id].
  rewrite field_form_title, field_form_body.
  unfold t, b. by rewrite !sanitize_idemp.
Qed.

(** ** When the store is out of reach *)

Lemma find_outage (w : World) (msg : jsstring) :
  outage w = Some msg →
  BlogPost.find w = (Thrown {| message := msg |}, called w CallFind).
Proof. intros E. unfold BlogPost.find, repo, called. by rewrite E. Qed.

Lemma findById_outage (id : jsstring) (w : World) (msg : jsstring) :
  outage w = Some msg →
  BlogPost.findById id w =
    (Thrown {| message := msg |}, called w (CallFindById id)).
Proof. intros E. unfold BlogPost.findById, repo, called. by rewrite E. Qed.

Lemma findByIdAndDelete_outage (id : jsstring) (w : World) (msg : jsstring) :
  outage w = Some msg →
  BlogPost.findByIdAndDelete id w =
    (Thrown {| message := msg |}, called w (CallFindByIdAndDelete id)).
Proof.
  intros E. unfold BlogPost.findByIdAndDelete, repo, called. by rewrite E.
Qed.

(** X6. A store error never escapes a handler and is never swallowed:
    when the store is out of reach, each handler that gets as far as
    its repository call answers 500 with its own prefix followed by the
    error's message, after exactly one call, and the collection is as
    it was. *)
Theorem store_failure_answers_500 (marker : jsstring) (h : Handler)
  (req : Request) (w : World) (msg prefix : jsstring) :
  outage w = Some msg →
  errorPrefix h = Some prefix →
  (h = HCreatePost →
     createErrors (sanitize (field (body req) "title"))
       (sanitize (field (body req) "body")) = []) →
  (h = HUpdatePost →
     updateErrors (sanitize (field (body req) "title"))
       (sanitize (field (body req) "body")) = []) →
  (runHandler marker h req w).1 = Normal (Send 500 (prefix ++ msg))
  ∧ docs (runHandler marker h req w).2 = docs w
  ∧ ∃ call, journal (runHandler marker h req w).2 = journal w ++ [call].
Proof.
  intros E Hp Hc Hu.
  destruct h; cbn [errorPrefix] in Hp; simplify_eq; cbn [runHandler].
  - unfold getAllPosts, tryCatch, bind. rewrite (find_outage w msg E).
    split; [done|]. split; [done|]. by eexists.
  - rewrite (createPost_outage req w msg (Hc eq_refl) E).
    split; [done|]. split; [done|]. by eexists.
  - unfold getPostById, tryCatch, bind.
    rewrite (findById_outage _ w msg E).
    split; [done|]. split; [done|]. by eexists.
  - rewrite (updatePost_outage req w msg (Hu eq_refl) E).
    split; [done|]. split; [done|]. by eexists.
  - unfold deletePost, tryCatch, bind.
    rewrite (findByIdAndDelete_outage _ w msg E).
    split; [done|]. split; [done|]. by eexists.
  - unfold showEditForm, tryCatch, bind.
    rewrite (findById_outage _ w msg E).
    split; [done|]. split; [done|]. by eexists.
Qed.

Lemma store_failure_answers_500_witness :
  (runHandler (js "...") HDeletePost (withId sampleId ∅) downWorld).1 =
    Normal (Send 500 (js "Error deleting post: connect ECONNREFUSED"))
  ∧ docs (runHandler (js "...") HDeletePost (withId sampleId ∅) downWorld).2 =
      docs downWorld.
Proof.
  destruct (store_failure_answers_500 (js "...") HDeletePost
              (withId sampleId ∅) downWorld (js "connect ECONNREFUSED")
              (js "Error deleting post: ") eq_refl eq_refl)
    as (H1 & H2 & _); [discriminate | discriminate |].
  split; [exact H1 | exact H2].
Defined.

(** X7. Every handler ends in exactly one response and no exception
    leaves it, whatever the request and the state of the store; it makes
    at most one repository call and does not touch anything else. *)
Theorem handler_answers_once (marker : jsstring) (h : Handler)
  (req : Request) (w : World) :
  ∃ resp,
    (runHandler marker h req w).1 = Normal resp
    ∧ (journal (runHandler marker h req w).2 = journal w
       ∨ ∃ call, journal (runHandler marker h req w).2 = journal w ++ [call])
    ∧ outage (runHandler marker h req w).2 = outage w.
Proof.
  destruct h; cbn [runHandler].
  - run_handler. destruct (outage w) eqn:E; simpl; rewrite ?E; eauto 6.
  - run_handler. simpl. eauto.
  - destruct (decide (createErrors (sanitize (field (body req) "title"))
                        (sanitize (field (body req) "body")) = []))
      as [Hok|Hbad].
    + destruct (outage w) as [msg|] eqn:E.
      * rewrite (createPost_outage req w msg Hok E). simpl. eauto 6.
      * rewrite (createPost_saved req w Hok E). simpl. eauto 6.
    + rewrite (createPost_rejected req w Hbad). simpl. eauto.
  - run_handler. destruct (outage w) eqn:E; simpl; rewrite ?E; [eauto 6|].
    destruct (docs w !! params_id req); simpl; eauto 6.
  - destruct (decide (updateErrors (sanitize (field (body req) "title"))
                        (sanitize (field (body req) "body")) = []))
      as [Hok|Hbad].
    + destruct (outage w) as [msg|] eqn:E.
      * rewrite (updatePost_outage req w msg Hok E). simpl. eauto 6.
      * destruct (docs w !! params_id req) as [old|] eqn:Hold.
        -- rewrite (updatePost_updated req w old Hok E Hold). simpl. eauto 6.
        -- rewrite (updatePost_not_found req w Hok E Hold). simpl. eauto 6.
    + rewrite (updatePost_rejected req w Hbad). simpl. eauto.
  - run_handler. destruct (outage w) eqn:E; simpl; rewrite ?E; [eauto 6|].
    destruct (docs w !! params_id req); simpl; eauto 6.
  - run_handler. simpl. eauto.
  - run_handler. destruct (outage w) eqn:E; simpl; rewrite ?E; [eauto 6|].
    destruct (docs w !! params_id req); simpl; eauto 6.
Qed.

(** ** Reading a post back *)

Lemma getPostById_found (req : Request) (w : World) (doc : Doc) :
  outage w = None → docs w !! params_id req = Some doc →
  getPostById req w =
    (Normal (Render 200 "detail"
               (DetailLocals (params_id req) (doc_title doc) (doc_body doc)
                  (js "/posts/" ++ params_id req))),
     called w (CallFindById (params_id req))).
Proof.
  intros E H. unfold getPostById, tryCatch, bind.
  by rewrite (findById_up _ _ E), H.
Qed.

Lemma showEditForm_found (req : Request) (w : World) (doc : Doc) :
  outage w = None → docs w !! params_id req = Some doc →
  showEditForm req w =
    (Normal (Render 200 "edit"
               (EditLocals None (params_id req) (doc_title doc)
                  (doc_body doc))),
     called w (CallFindById (params_id req))).
Proof.
  intros E H. unfold showEditForm, tryCatch, bind.
  by rewrite (findById_up _ _ E), H.
Qed.

(** X8. Following the redirect of a successful create shows what was
    stored: the detail view of the new id carries the trimmed title and
    body and the url [/posts/<id>] the redirect pointed to, and the edit
    form of that id is prefilled with the same two values. *)
Theorem created_post_is_shown (req : Request) (w : World) :
  let t := sanitize (field (body req) "title") in
  let b := sanitize (field (body req) "body") in
  createErrors t b = [] → outage w = None →
  ∃ id,
    (createPost req w).1 = Normal (Redirect (js "/posts/" ++ id))
    ∧ ∀ req', params_id req' = id →
        (getPostById req' (createPost req w).2).1 =
          Normal (Render 200 "detail"
                    (DetailLocals id t b (js "/posts/" ++ id)))
        ∧ (showEditForm req' (createPost req w).2).1 =
            Normal (Render 200 "edit" (EditLocals None id t b)).
Proof.
  intros t b Hok E. exists (BlogPost.newId (docs w)).
  rewrite (createPost_saved req w Hok E). split; [done|].
  intros req' <-. cbn [snd].
  set (w' := {| docs := _; outage := None; journal := _ |}).
  assert (Hl : docs w' !! params_id req' =
               Some {| doc_title := t; doc_body := b |}).
  { unfold w'. cbn [docs]. apply lookup_insert_eq. }
  by rewrite (getPostById_found req' w' _ eq_refl Hl),
    (showEditForm_found req' w' _ eq_refl Hl).
Qed.

Lemma created_post_is_shown_witness :
  ∃ id,
    (createPost (request "POST" [js "new"] ∅ goodForm) sampleWorld).1 =
      Normal (Redirect (js "/posts/" ++ id))
    ∧ (getPostById (withId id ∅)
         (createPost (request "POST" [js "new"] ∅ goodForm) sampleWorld).2).1 =
        Normal (Render 200 "detail"
                  (DetailLocals id (js "New title") (js "New body")
                     (js "/posts/" ++ id))).
Proof.
  destruct (created_post_is_shown (request "POST" [js "new"] ∅ goodForm)
              sampleWorld) as (id & H1 & H2).
  - vm_compute. reflexivity.
  - reflexivity.
  - exists id. split; [exact H1|].
    destruct (H2 (withId id ∅) eq_refl) as [H3 _]. exact H3.
Defined.

(** ** What a write changes in the collection *)

(** X9. A create never touches the posts that are there: each of them
    is found unchanged afterwards, whatever the submission and the state
    of the store, and the collection grows by at most one post. *)
Theorem create_keeps_existing_posts (req : Request) (w : World)
  (id : jsstring) (doc : Doc) :
  docs w !! id = Some doc →
  docs (createPost req w).2 !! id = Some doc
  ∧ (size (docs (createPost req w).2) ≤ S (size (docs w)))%nat.
Proof.
  intros Hl.
  destruct (decide (createErrors (sanitize (field (body req) "title"))
                      (sanitize (field (body req) "body")) = []))
    as [Hok|Hbad].
  - destruct (outage w) as [msg|] eqn:E.
    + rewrite (createPost_outage req w msg Hok E). simpl. split; [done|lia].
    + rewrite (createPost_saved req w Hok E). simpl.
      pose proof (newId_fresh (docs w)) as Hfresh. split.
      * rewrite lookup_insert_ne; [done|]. intros Heq.
        rewrite Heq in Hfresh. congruence.
      * by rewrite map_size_insert_None.
  - rewrite (createPost_rejected req w Hbad). simpl. split; [done|lia].
Qed.

Lemma create_keeps_existing_posts_witness :
  docs (createPost (request "POST" [js "new"] ∅ goodForm) sampleWorld).2
    !! sampleId =
    Some {| doc_title := js "Hello"; doc_body := js "First post" |}.
Proof.
  apply (create_keeps_existing_posts (request "POST" [js "new"] ∅ goodForm)
           sampleWorld sampleId).
  vm_compute. reflexivity.
Defined.

(** X10. An update never adds or removes a post: the set of ids in the
    collection is the same before and after, whatever the request and
    the state of the store (an unknown id is not created). *)
Theorem update_keeps_the_ids (req : Request) (w : World) :
  dom (docs (updatePost req w).2) = dom (docs w).
Proof.
  destruct (decide (updateErrors (sanitize (field (body req) "title"))
                      (sanitize (field (body req) "body")) = []))
    as [Hok|Hbad].
  - destruct (outage w) as [msg|] eqn:E.
    + by rewrite (updatePost_outage req w msg Hok E).
    + destruct (docs w !! params_id req) as [old|] eqn:Hold.
      * rewrite (updatePost_updated req w old Hok E Hold). simpl.
        by apply dom_insert_lookup_L.
      * by rewrite (updatePost_not_found req w Hok E Hold).
  - by rewrite (updatePost_rejected req w Hbad).
Qed.

(** X11. A successful update replaces the title and body of its target
    by the trimmed submission, nothing of the old values remaining, and
    leaves every other post as it was; the detail view of the target
    then shows the new values. *)
Theorem update_replaces_only_the_target (req : Request) (w : World)
  (old : Doc) :
  let t := sanitize (field (body req) "title") in
  let b := sanitize (field (body req) "body") in
  updateErrors t b = [] → outage w = None →
  docs w !! params_id req = Some old →
  (updatePost req w).1 = Normal (Redirect (js "/posts/" ++ params_id req))
  ∧ docs (updatePost req w).2 !! params_id req =
      Some {| doc_title := t; doc_body := b |}
  ∧ (∀ id, id ≠ params_id req →
       docs (updatePost req w).2 !! id = docs w !! id)
  ∧ (∀ req', params_id req' = params_id req →
       (getPostById req' (updatePost req w).2).1 =
         Normal (Render 200 "detail"
                   (DetailLocals (params_id req) t b
                      (js "/posts/" ++ params_id req)))).
Proof.
  intros t b Hok E Hold.
  rewrite (updatePost_updated req w old Hok E Hold). cbn [fst snd].
  set (w' := {| docs := _; outage := None; journal := _ |}).
  assert (Hl : docs w' !! params_id req =
               Some {| doc_title := t; doc_body := b |}).
  { unfold w'. cbn [docs]. apply lookup_insert_eq. }
  split; [done|]. split; [exact Hl|]. split.
  - intros id Hne. unfold w'. cbn [docs]. by rewrite lookup_insert_ne.
  - intros req' Hid. rewrite <- Hid in Hl |- *.
    by rewrite (getPostById_found req' w' _ eq_refl Hl).
Qed.

Lemma update_replaces_only_the_target_witness :
  docs (updatePost (withId sampleId goodForm) sampleWorld).2 !! sampleId =
    Some {| doc_title := js "New title"; doc_body := js "New body" |}.
Proof.
  destruct (update_replaces_only_the_target (withId sampleId goodForm)
              sampleWorld
              {| doc_title := js "Hello"; doc_body := js "First post" |})
    as (_ & H & _).
  - vm_compute. reflexivity.
  - reflexivity.
  - vm_compute. reflexivity.
  - exact H.
Defined.

(** X12. A successful delete redirects to the list, removes its target
    and nothing else, and is final: the show and edit-form handlers and
    a valid update of that id are answered 404 afterwards, so an update
    does not bring the post back. *)
Theorem delete_removes_only_the_target (req : Request) (w : World)
  (old : Doc) :
  outage w = None → docs w !! params_id req = Some old →
  let notFound := Normal (Send 404 (js "Post not found")) in
  (deletePost req w).1 = Normal (Redirect (js "/posts/"))
  ∧ docs (deletePost req w).2 !! params_id req = None
  ∧ (∀ id, id ≠ params_id req →
       docs (deletePost req w).2 !! id = docs w !! id)
  ∧ S (size (docs (deletePost req w).2)) = size (docs w)
  ∧ (∀ req', params_id req' = params_id req →
       (getPostById req' (deletePost req w).2).1 = notFound
       ∧ (showEditForm req' (deletePost req w).2).1 = notFound
       ∧ (updateErrors (sanitize (field (body req') "title"))
            (sanitize (field (body req') "body")) = [] →
          (updatePost req' (deletePost req w).2).1 = notFound
          ∧ docs (updatePost req' (deletePost req w).2).2 !! params_id req
            = None)).
Proof.
  intros E Hold notFound.
  rewrite (deletePost_deleted req w old E Hold). cbn [fst snd].
  set (w' := {| docs := _; outage := None; journal := _ |}).
  assert (Hl : docs w' !! params_id req = None).
  { unfold w'. cbn [docs]. apply lookup_delete_eq. }
  split; [done|]. split; [exact Hl|]. split; [|split].
  - intros id Hne. unfold w'. cbn [docs]. by rewrite lookup_delete_ne.
  - unfold w'. cbn [docs].
    rewrite <- (insert_delete_id (docs w) (params_id req) old Hold) at 2.
    rewrite map_size_insert_None; [done|]. apply lookup_delete_eq.
  - intros req' Hid. rewrite <- Hid in Hl |- *.
    rewrite (getPostById_not_found req' w' eq_refl Hl),
      (showEditForm_not_found req' w' eq_refl Hl).
    split; [done|]. split; [done|]. intros Hok.
    by rewrite (updatePost_not_found req' w' Hok eq_refl Hl).
Qed.

Lemma delete_removes_only_the_target_witness :
  (deletePost (withId sampleId ∅) sampleWorld).1 =
    Normal (Redirect (js "/posts/"))
  ∧ (getPostById (withId sampleId ∅)
       (deletePost (withId sampleId ∅) sampleWorld).2).1 =
      Normal (Send 404 (js "Post not found")).
Proof.
  destruct (delete_removes_only_the_target (withId sampleId ∅) sampleWorld
              {| doc_title := js "Hello"; doc_body := js "First post" |})
    as (H1 & _ & _ & _ & H2).
  - reflexivity.
  - vm_compute. reflexivity.
  - split; [exact H1|].
    destruct (H2 (withId sampleId ∅) eq_refl) as [H3 _]. exact H3.
Defined.

(** ** The list view *)

Lemma computeSummary_length (marker body : jsstring) (n : nat) :
  (length (BlogPost.computeSummary marker body (Some n)) ≤
   n + length marker)%nat.
Proof.
  unfold BlogPost.computeSummary. cbn [default from_option id].
  destruct (length body <=? n)%nat eqn:E.
  - apply Nat.leb_le in E. lia.
  - rewrite length_app, length_take. lia.
Qed.

Lemma getAllPosts_up (marker : jsstring) (req : Request) (w : World) :
  outage w = None →
  getAllPosts marker req w =
    (Normal (Render 200 "index"
               (IndexLocals (indexEntry marker <$> map_to_list (docs w)))),
     called w CallFind).
Proof.
  intros E. unfold getAllPosts, tryCatch, bind, BlogPost.find, repo, called.
  rewrite E. cbn [ret]. by rewrite <- list_fmap_compose.
Qed.

(** X13. With the store in reach the list handler answers 200 with the
    index view holding one entry per stored post and no other: as many
    entries as posts, no id twice, each entry carrying the id, title and
    body of a stored post, the url [/posts/<id>] and the summary of the
    body cut at 50, which is never longer than 50 plus the marker. The
    collection is left as it was. *)
Theorem index_lists_every_post (marker : jsstring) (req : Request)
  (w : World) :
  outage w = None →
  ∃ posts,
    (getAllPosts marker req w).1 =
      Normal (Render 200 "index" (IndexLocals posts))
    ∧ docs (getAllPosts marker req w).2 = docs w
    ∧ length posts = size (docs w)
    ∧ NoDup (x_id <$> posts)
    ∧ (∀ e, e ∈ posts ↔
         ∃ id doc,
           docs w !! id = Some doc
           ∧ e = {| x_id := id; x_title := doc_title doc;
                    x_body := doc_body doc; x_url := js "/posts/" ++ id;
                    x_summary :=
                      BlogPost.computeSummary marker (doc_body doc)
                        (Some 50%nat) |})
    ∧ (∀ e, e ∈ posts →
         (length (x_summary e) ≤ 50 + length marker)%nat).
Proof.
  intros E. exists (indexEntry marker <$> map_to_list (docs w)).
  rewrite (getAllPosts_up marker req w E).
  split; [done|]. split; [done|]. split; [|split; [|split]].
  - by rewrite length_fmap, length_map_to_list.
  - rewrite <- list_fmap_compose.
    apply (NoDup_fst_map_to_list (docs w)).
  - intros e. rewrite list_elem_of_fmap. split.
    + intros ([id doc] & -> & Hin%elem_of_map_to_list). by exists id, doc.
    + intros (id & doc & Hl & ->). exists (id, doc).
      split; [done|]. by apply elem_of_map_to_list.
  - intros e ([id doc] & -> & _)%list_elem_of_fmap.
    apply computeSummary_length.
Qed.

Lemma index_lists_every_post_witness :
  (getAllPosts (js "...") (request "GET" [] ∅ ∅) sampleWorld).1 =
    Normal (Render 200 "index"
              (IndexLocals
                 [{| x_id := sampleId; x_title := js "Hello";
                     x_body := js "First post";
                     x_url := js "/posts/507f1f77bcf86cd799439011";
                     x_summary := js "First post" |}])).
Proof.
  destruct (index_lists_every_post (js "...") (request "GET" [] ∅ ∅)
              sampleWorld eq_refl) as (posts & H & _).
  rewrite H. vm_compute in H. by injection H as <-.
Defined.

(** ** Stored fields are trimmed and titles bounded *)

Lemma sanitize_trimmed (v : JsValue) : trim (sanitize v) = sanitize v.
Proof.
  destruct v; try done. rewrite sanitize_string. apply trim_idemp.
Qed.

Lemma tidy_insert (d : gmap jsstring Doc) id (title body' : JsValue) :
  tidy d →
  sanitize title ≠ [] → sanitize body' ≠ [] →
  (jslength (sanitize title) <= 200)%N →
  tidy (<[id := {| doc_title := sanitize title;
                   doc_body := sanitize body' |}]> d).
Proof.
  intros Hd Ht Hb Hlen id' doc. rewrite lookup_insert.
  case_decide; [|by apply Hd].
  intros [= <-]. cbn [doc_title doc_body].
  by rewrite !sanitize_trimmed.
Qed.

Lemma tidy_delete (d : gmap jsstring Doc) id : tidy d → tidy (delete id d).
Proof.
  intros Hd id' doc Hl. apply lookup_delete_Some in Hl as [_ Hl].
  by apply (Hd id').
Qed.

Lemma runHandler_keeps_tidy marker (h : Handler) (req : Request) (w : World) :
  tidy (docs w) → tidy (docs (runHandler marker h req w).2).
Proof.
  intros Hd. destruct h; cbn [runHandler].
  - run_handler. by destruct (outage w).
  - by run_handler.
  - destruct (decide (createErrors (sanitize (field (body req) "title"))
                        (sanitize (field (body req) "body")) = []))
      as [Hok|Hbad].
    + destruct (outage w) as [msg|] eqn:E.
      * by rewrite (createPost_outage req w msg Hok E).
      * rewrite (createPost_saved req w Hok E). cbn [snd docs].
        apply createErrors_nil in Hok as (Ht & Hb & Hlen & _).
        by apply tidy_insert.
    + by rewrite (createPost_rejected req w Hbad).
  - run_handler. destruct (outage w); [done|].
    by destruct (docs w !! params_id req).
  - destruct (decide (updateErrors (sanitize (field (body req) "title"))
                        (sanitize (field (body req) "body")) = []))
      as [Hok|Hbad].
    + destruct (outage w) as [msg|] eqn:E.
      * by rewrite (updatePost_outage req w msg Hok E).
      * destruct (docs w !! params_id req) as [old|] eqn:Hold.
        -- rewrite (updatePost_updated req w old Hok E Hold). cbn [snd docs].
           apply updateErrors_nil in Hok as (Ht & Hb & Hlen).
           by apply tidy_insert.
        -- by rewrite (updatePost_not_found req w Hok E Hold).
    + by rewrite (updatePost_rejected req w Hbad).
  - run_handler. destruct (outage w); [done|].
    destruct (docs w !! params_id req); [|done].
    by apply tidy_delete.
  - by run_handler.
  - run_handler. destruct (outage w); [done|].
    by destruct (docs w !! params_id req).
Qed.

(** X14. Whatever requests the server answers, in whatever order and
    whether or not the store is in reach, a collection whose titles and
    bodies are non-empty trimmed strings with titles of at most 200 code
    units stays so: nothing the handlers store has white space at
    either end, and no update or create lengthens a title past 200. *)
Theorem served_collection_stays_tidy (marker : jsstring)
  (reqs : list Request) (w : World) :
  tidy (docs w) → tidy (docs (serve marker reqs w)).
Proof.
  revert w. induction reqs as [|req reqs IH]; intros w Hd; [done|].
  cbn [serve]. apply IH. unfold app.
  destruct (dispatch _ _ _) as [[h id]|]; [|done].
  by apply runHandler_keeps_tidy.
Qed.

Lemma served_collection_stays_tidy_witness :
  tidy (docs (serve (js "...")
                [request "POST" [js "new"] ∅ goodForm;
                 request "PUT" [sampleId] ∅ longBodyForm;
                 request "DELETE" [otherId] ∅ ∅]
                emptyWorld)).
Proof.
  apply served_collection_stays_tidy.
  intros id doc Hl. cbn [docs emptyWorld] in Hl.
  by rewrite lookup_empty in Hl.
Defined.

(** ** The two override layers *)

Lemma http_method_truthy (M : jsstring) : M ∈ HTTP_METHODS → truthy M = true.
Proof.
  intros H. destruct M; [|done]. exfalso.
  assert (Hno : bool_decide ([] ∈ HTTP_METHODS) = false) by by vm_compute.
  by apply bool_decide_eq_false in Hno.
Qed.

Lemma supports_truthy (m : jsstring) :
  supports (JString m) = true → truthy m = true.
Proof.
  unfold supports. cbn [jsTruthy]. by intros [[H _]%andb_true_iff _]%andb_true_iff.
Qed.

(** The layers on a request that did not arrive as POST. *)
Lemma layers_not_post (m : string) (segs : list jsstring)
  (q b : gmap string JsValue) :
  js m ≠ js "POST" →
  methodOverride bodyGetter
    (methodOverride queryGetter (request m segs q b)) =
    {| method := js m; originalMethod := Some (js m); path := segs;
       query := q; body := b; params_id := [] |}.
Proof.
  intros Hm.
  assert (Hex : bool_decide (js m ∈ [js "POST"]) = false).
  { apply bool_decide_eq_false. by rewrite list_elem_of_singleton. }
  unfold methodOverride at 2. unfold request. cbn [originalMethod method].
  rewrite Hex.
  unfold methodOverride, setOriginalMethod. cbn [originalMethod method].
  assert ((if truthy (js m) then js m else js m) = js m) as ->
    by by destruct (truthy (js m)).
  by rewrite Hex.
Qed.

(** The query layer on a POST that names a supported method. *)
Lemma query_layer_override (m : jsstring) (segs : list jsstring)
  (q b : gmap string JsValue) :
  q !! "_method" = Some (JString m) → supports (JString m) = true →
  methodOverride queryGetter (request "POST" segs q b) =
    {| method := toUpperCase m; originalMethod := Some (js "POST");
       path := segs; query := q; body := b; params_id := [] |}.
Proof.
  intros Hq Hs. unfold methodOverride, request. cbn [originalMethod method].
  rewrite post_is_examined.
  unfold queryGetter, setOriginalMethod, field.
  cbn [query method path body params_id originalMethod].
  rewrite Hq. cbn [default from_option id jsTruthy].
  by rewrite (supports_truthy m Hs), Hs.
Qed.

(** The body layer on a request that arrived as POST: the field
    [_method] is gone, and the method is the one it named when that is
    a supported one. *)
Lemma body_layer_post m1 (segs : list jsstring) (q b : gmap string JsValue) :
  ∃ m2,
    methodOverride bodyGetter
      {| method := m1; originalMethod := Some (js "POST"); path := segs;
         query := q; body := b; params_id := [] |} =
      {| method := m2; originalMethod := Some (js "POST"); path := segs;
         query := q; body := delete "_method" b; params_id := [] |}
    ∧ (b !! "_method" = None → m2 = m1)
    ∧ (∀ m, b !! "_method" = Some (JString m) →
         supports (JString m) = true → m2 = toUpperCase m).
Proof.
  unfold methodOverride. cbn [originalMethod method].
  rewrite truthy_post, post_is_examined.
  unfold bodyGetter, setOriginalMethod. cbn [body].
  destruct (b !! "_method") as [v|] eqn:Hb.
  - unfold setBody. cbn [method originalMethod path query body params_id].
    destruct v as [| |bv|n|s|items|props];
      try (eexists; split; [reflexivity|]; split; [done|]; intros m [=]).
    + destruct (supports (JString s)) eqn:Hs.
      * eexists. split; [reflexivity|]. split; [done|]. by intros m [= ->].
      * eexists. split; [reflexivity|]. split; [done|].
        intros m [= ->] Hm. congruence.
    + destruct (default JUndefined (head items)) as [| |bv|n|s|items'|props];
        try (eexists; split; [reflexivity|]; split; [done|]; intros m [=]).
      destruct (supports (JString s)); eexists;
        (split; [reflexivity|]; split; [done|]; intros m [=]).
  - rewrite (delete_id _ _ Hb). eexists. split; [reflexivity|].
    split; [done|]. intros m [=].
Qed.

Lemma http_methods_ascii :
  Forall (Forall (λ c, (c < 128)%N)) HTTP_METHODS.
Proof. apply (bool_decide_unpack _). by vm_compute. Qed.

Lemma supports_upper (m M : jsstring) :
  M ∈ HTTP_METHODS → toUpperCase m = M → supports (JString m) = true.
Proof.
  intros HM Hm. unfold supports. cbn [jsTruthy typeof].
  assert (truthy m = true) as ->.
  { pose proof (http_method_truthy M HM) as Ht. rewrite <- Hm in Ht.
    by destruct m. }
  pose proof (proj1 (Forall_forall _ _) http_methods_ascii M HM) as Hascii.
  rewrite <- toLowerCase_toUpperCase, Hm by by rewrite Hm.
  apply bool_decide_eq_true_2. unfold methods.
  apply list_elem_of_fmap. by exists M.
Qed.

Lemma delete_is_a_method : js "DELETE" ∈ HTTP_METHODS.
Proof.
  apply (bool_decide_unpack (js "DELETE" ∈ HTTP_METHODS)). by vm_compute.
Qed.

(** X15. Method override examines a request only when it arrived as
    POST. Any other request passes both layers with its method, path,
    query and body as they were, a [_method] field included. A POST
    always comes out with the field [_method] removed from its body and
    every other field, its path and its query as they were, so no
    handler ever sees [_method] in a form submission. *)
Theorem override_examines_post_only (m : string) (segs : list jsstring)
  (q b : gmap string JsValue) :
  (js m ≠ js "POST" →
     methodOverride bodyGetter
       (methodOverride queryGetter (request m segs q b)) =
       {| method := js m; originalMethod := Some (js m); path := segs;
          query := q; body := b; params_id := [] |})
  ∧ (let req' :=
       methodOverride bodyGetter
         (methodOverride queryGetter (request "POST" segs q b)) in
     body req' = delete "_method" b
     ∧ body req' !! "_method" = None
     ∧ (∀ k, k ≠ "_method" → field (body req') k = field b k)
     ∧ path req' = segs ∧ query req' = q).
Proof.
  split; [apply layers_not_post|].
  destruct (query_layer_post segs q b) as (m1 & -> & _).
  destruct (body_layer_post m1 segs q b) as (m2 & -> & _).
  cbn [body path query]. split; [done|]. split; [apply lookup_delete_eq|].
  split; [|done]. intros k Hk. by apply field_delete_method.
Qed.

Lemma override_examines_post_only_witness :
  methodOverride bodyGetter
    (methodOverride queryGetter
       (request "GET" [sampleId] {[ "_method" := JString (js "DELETE") ]} ∅)) =
    {| method := js "GET"; originalMethod := Some (js "GET");
       path := [sampleId];
       query := {[ "_method" := JString (js "DELETE") ]};
       body := ∅; params_id := [] |}.
Proof.
  destruct (override_examines_post_only "GET" [sampleId]
              {[ "_method" := JString (js "DELETE") ]} ∅) as [H _].
  apply H. vm_compute. discriminate.
Defined.

Lemma dispatch_delete (id : jsstring) :
  truthy id = true →
  dispatch postRoutes (js "DELETE") [id] = Some (HDeletePost, id).
Proof.
  intros Hid. cbv [dispatch postRoutes matchPath]. rewrite Hid.
  assert (R1 : routeHandler
                 [(js "GET", HShowNewPostForm); (js "POST", HCreatePost)]
                 (js "DELETE") = None) by (vm_compute; reflexivity).
  assert (R2 : routeHandler
                 [(js "GET", HGetPostById); (js "PUT", HUpdatePost);
                  (js "DELETE", HDeletePost); (js "POST", HFallbackPost)]
                 (js "DELETE") = Some HDeletePost) by (vm_compute; reflexivity).
  rewrite R1, R2. by destruct (sameNoCase id (js "new")).
Qed.

(** X16. The delete handler is reached by DELETE on [/posts/{id}] and by
    a POST that method-override turns into a DELETE: one whose body
    field [_method], or whose query parameter [_method] when the body
    names none, spells DELETE in any letter case. For an existing post
    and the store in reach each of them removes the post and redirects
    to [/posts/]. *)
Theorem delete_reached_by_delete_or_override
  (marker id : jsstring) (q b : gmap string JsValue) (w : World) (old : Doc) :
  truthy id = true → outage w = None → docs w !! id = Some old →
  let deleted :=
    Some (Normal (Redirect (js "/posts/")),
          {| docs := delete id (docs w);
             outage := None;
             journal := journal w ++ [CallFindByIdAndDelete id] |}) in
  app marker (request "DELETE" [id] q b) w = deleted
  ∧ (∀ m, toUpperCase m = js "DELETE" →
       app marker (request "POST" [id] q (<["_method" := JString m]> b)) w =
         deleted)
  ∧ (∀ m, toUpperCase m = js "DELETE" → b !! "_method" = None →
       app marker (request "POST" [id] (<["_method" := JString m]> q) b) w =
         deleted).
Proof.
  intros Hid Hup Hold deleted.
  split; [|split].
  - unfold app. rewrite layers_not_post by (vm_compute; discriminate).
    cbn [method path]. rewrite (dispatch_delete id Hid). cbn [runHandler].
    unfold deleted. f_equal.
    exact (deletePost_deleted
             (setParamsId id
                {| method := js "DELETE"; originalMethod := Some (js "DELETE");
                   path := [id]; query := q; body := b; params_id := [] |})
             w old Hup Hold).
  - intros m Hm. unfold app.
    pose proof (supports_upper m _ delete_is_a_method Hm) as Hs.
    destruct (query_layer_post [id] q (<["_method" := JString m]> b))
      as (m1 & -> & _).
    destruct (body_layer_post m1 [id] q (<["_method" := JString m]> b))
      as (m2 & -> & _ & Hm2).
    rewrite (Hm2 m (lookup_insert_eq _ _ _) Hs), Hm. cbn [method path].
    rewrite (dispatch_delete id Hid). cbn [runHandler].
    unfold deleted. f_equal.
    exact (deletePost_deleted
             (setParamsId id
                {| method := js "DELETE"; originalMethod := Some (js "POST");
                   path := [id]; query := q;
                   body := delete "_method" (<["_method" := JString m]> b);
                   params_id := [] |})
             w old Hup Hold).
  - intros m Hm Hb. unfold app.
    pose proof (supports_upper m _ delete_is_a_method Hm) as Hs.
    rewrite (query_layer_override m [id] _ b (lookup_insert_eq _ _ _) Hs).
    rewrite Hm, (body_layer_plain _ [id] _ b Hb). cbn [method path].
    rewrite (dispatch_delete id Hid). cbn [runHandler].
    unfold deleted. f_equal.
    exact (deletePost_deleted
             (setParamsId id
                {| method := js "DELETE"; originalMethod := Some (js "POST");
                   path := [id]; query := <["_method" := JString m]> q;
                   body := b; params_id := [] |})
             w old Hup Hold).
Qed.

Lemma delete_reached_by_delete_or_override_witness :
  app (js "...")
    (request "POST" [sampleId] ∅ {[ "_method" := JString (js "delete") ]})
    sampleWorld =
  app (js "...") (request "DELETE" [sampleId] ∅ ∅) sampleWorld.
Proof.
  destruct (delete_reached_by_delete_or_override (js "...") sampleId ∅ ∅
              sampleWorld
              {| doc_title := js "Hello"; doc_body := js "First post" |})
    as (Hdel & Hbody & _).
  - reflexivity.
  - reflexivity.
  - vm_compute. reflexivity.
  - rewrite Hdel. apply (Hbody (js "delete")). vm_compute. reflexivity.
Defined.

(** ** Where a GET goes *)

Lemma dispatch_get (segs : list jsstring) :
  dispatch postRoutes (js "GET") segs =
    match segs with
    | [] => Some (HGetAllPosts, [])
    | [s] =>
        if sameNoCase s (js "new") then Some (HShowNewPostForm, [])
        else if truthy s then Some (HGetPostById, s) else None
    | [id; s] =>
        if truthy id && sameNoCase s (js "edit")
        then Some (HShowEditForm, id) else None
    | _ => None
    end.
Proof.
  cbv [dispatch postRoutes matchPath].
  assert (R0 : routeHandler [(js "GET", HGetAllPosts)] (js "GET") =
               Some HGetAllPosts) by (vm_compute; reflexivity).
  assert (R1 : routeHandler
                 [(js "GET", HShowNewPostForm); (js "POST", HCreatePost)]
                 (js "GET") = Some HShowNewPostForm)
    by (vm_compute; reflexivity).
  assert (R2 : routeHandler
                 [(js "GET", HGetPostById); (js "PUT", HUpdatePost);
                  (js "DELETE", HDeletePost); (js "POST", HFallbackPost)]
                 (js "GET") = Some HGetPostById) by (vm_compute; reflexivity).
  assert (R3 : routeHandler [(js "GET", HShowEditForm)] (js "GET") =
               Some HShowEditForm) by (vm_compute; reflexivity).
  destruct segs as [|s [|s2 [|s3 rest]]]; rewrite ?R0, ?R1, ?R2, ?R3;
    try reflexivity.
  - destruct (sameNoCase s (js "new")); [done|]. by destruct (truthy s).
  - by destruct (truthy s && sameNoCase s2 (js "edit")).
Qed.

Lemma dispatch_head (segs : list jsstring) :
  dispatch postRoutes (js "HEAD") segs = dispatch postRoutes (js "GET") segs.
Proof.
  cbv [dispatch postRoutes].
  assert (R0 : routeHandler [(js "GET", HGetAllPosts)] (js "HEAD") =
               routeHandler [(js "GET", HGetAllPosts)] (js "GET"))
    by (vm_compute; reflexivity).
  assert (R1 : routeHandler
                 [(js "GET", HShowNewPostForm); (js "POST", HCreatePost)]
                 (js "HEAD") =
               routeHandler
                 [(js "GET", HShowNewPostForm); (js "POST", HCreatePost)]
                 (js "GET")) by (vm_compute; reflexivity).
  assert (R2 : routeHandler
                 [(js "GET", HGetPostById); (js "PUT", HUpdatePost);
                  (js "DELETE", HDeletePost); (js "POST", HFallbackPost)]
                 (js "HEAD") =
               routeHandler
                 [(js "GET", HGetPostById); (js "PUT", HUpdatePost);
                  (js "DELETE", HDeletePost); (js "POST", HFallbackPost)]
                 (js "GET")) by (vm_compute; reflexivity).
  assert (R3 : routeHandler [(js "GET", HShowEditForm)] (js "HEAD") =
               routeHandler [(js "GET", HShowEditForm)] (js "GET"))
    by (vm_compute; reflexivity).
  by rewrite R0, R1, R2, R3.
Qed.

Lemma dispatch_get_readOnly (segs : list jsstring) h id :
  dispatch postRoutes (js "GET") segs = Some (h, id) → readOnly h = true.
Proof.
  rewrite dispatch_get.
  destruct segs as [|s [|s2 [|s3 rest]]]; try done.
  - by intros [= <- _].
  - destruct (sameNoCase s (js "new")); [by intros [= <- _]|].
    destruct (truthy s); [by intros [= <- _] | done].
  - destruct (truthy s && sameNoCase s2 (js "edit")); [|done].
    by intros [= <- _].
Qed.

Lemma readOnly_keeps_docs marker (h : Handler) (req : Request) (w : World) :
  readOnly h = true → docs (runHandler marker h req w).2 = docs w.
Proof.
  destruct h; try done; intros _; cbn [runHandler]; run_handler.
  - by destruct (outage w).
  - destruct (outage w); [done|]. by destruct (docs w !! params_id req).
  - destruct (outage w); [done|]. by destruct (docs w !! params_id req).
Qed.

(** X17. A GET or HEAD request never changes the collection, whatever
    its path, its query and its body: a [_method] it carries is not
    looked at, and every handler it can reach only reads. *)
Theorem get_never_changes_the_collection (marker : jsstring) (m : string)
  (segs : list jsstring) (q b : gmap string JsValue) (w : World)
  (out : Completion Response) (w' : World) :
  m = "GET" ∨ m = "HEAD" →
  app marker (request m segs q b) w = Some (out, w') →
  docs w' = docs w.
Proof.
  intros Hm. unfold app.
  rewrite layers_not_post by (destruct Hm as [->| ->]; vm_compute; discriminate).
  cbn [method path].
  assert (Hd : dispatch postRoutes (js m) segs =
               dispatch postRoutes (js "GET") segs).
  { destruct Hm as [->| ->]; [done | apply dispatch_head]. }
  rewrite Hd.
  destruct (dispatch postRoutes (js "GET") segs) as [[h id]|] eqn:E; [|done].
  intros [= H]. apply dispatch_get_readOnly in E.
  pose proof (readOnly_keeps_docs marker h
                (setParamsId id
                   {| method := js m; originalMethod := Some (js m);
                      path := segs; query := q; body := b;
                      params_id := [] |}) w E) as Hk.
  rewrite H in Hk. exact Hk.
Qed.

Lemma get_never_changes_the_collection_witness :
  ∃ out w',
    app (js "...")
      (request "GET" [sampleId] {[ "_method" := JString (js "DELETE") ]} ∅)
      sampleWorld = Some (out, w')
    ∧ docs w' = docs sampleWorld.
Proof.
  eexists _, _. split; [vm_compute; reflexivity|].
  eapply (get_never_changes_the_collection (js "...") "GET" [sampleId]
            {[ "_method" := JString (js "DELETE") ]} ∅ sampleWorld).
  - by left.
  - vm_compute. reflexivity.
Defined.

(** X18. Where a GET under [/posts] goes, whatever [_method] it carries:
    the root to the list; [/new], in any letter case, to the empty form
    (it is declared before [/:id], so [new] is never looked up as an
    id); any other single segment to the detail of that id; [/<id>/edit]
    to the edit form of that id; a longer path to no handler of the
    application. *)
Theorem get_routes (marker : jsstring) (q b : gmap string JsValue) (w : World) :
  app marker (request "GET" [] q b) w =
    Some (getAllPosts marker (withId [] b) w)
  ∧ (∀ s, sameNoCase s (js "new") = true →
       app marker (request "GET" [s] q b) w =
         Some (Normal (Render 200 "new" NoLocals), w))
  ∧ (∀ id, truthy id = true → sameNoCase id (js "new") = false →
       app marker (request "GET" [id] q b) w =
         Some (getPostById (withId id b) w))
  ∧ (∀ id s, truthy id = true → sameNoCase s (js "edit") = true →
       app marker (request "GET" [id; s] q b) w =
         Some (showEditForm (withId id b) w))
  ∧ (∀ s1 s2 s3 rest,
       app marker (request "GET" (s1 :: s2 :: s3 :: rest) q b) w = None).
Proof.
  assert (Hget : js "GET" ≠ js "POST") by (vm_compute; discriminate).
  unfold app. split; [|split; [|split; [|split]]].
  - rewrite (layers_not_post "GET" _ _ _ Hget). cbn [method path].
    by rewrite dispatch_get.
  - intros s Hs. rewrite (layers_not_post "GET" _ _ _ Hget).
    cbn [method path]. by rewrite dispatch_get, Hs.
  - intros id Hid Hnew. rewrite (layers_not_post "GET" _ _ _ Hget).
    cbn [method path]. by rewrite dispatch_get, Hnew, Hid.
  - intros id s Hid Hs. rewrite (layers_not_post "GET" _ _ _ Hget).
    cbn [method path]. by rewrite dispatch_get, Hid, Hs.
  - intros s1 s2 s3 rest. rewrite (layers_not_post "GET" _ _ _ Hget).
    cbn [method path]. by rewrite dispatch_get.
Qed.

Lemma dispatch_post_new (s : jsstring) :
  sameNoCase s (js "new") = true →
  dispatch postRoutes (js "POST") [s] = Some (HCreatePost, []).
Proof.
  intros Hs. cbv [dispatch postRoutes matchPath]. rewrite Hs.
  assert (R1 : routeHandler
                 [(js "GET", HShowNewPostForm); (js "POST", HCreatePost)]
                 (js "POST") = Some HCreatePost) by (vm_compute; reflexivity).
  by rewrite R1.
Qed.

(** X19. A POST on [/posts/new] that names no other method is a create:
    it reaches [createPost] with the submitted body, not the 405
    fallback that other POSTs on a single segment get. *)
Theorem post_new_reaches_create (marker s : jsstring)
  (q b : gmap string JsValue) (w : World) :
  sameNoCase s (js "new") = true →
  q !! "_method" = None → b !! "_method" = None →
  app marker (request "POST" [s] q b) w = Some (createPost (withId [] b) w).
Proof.
  intros Hs Hq Hb. unfold app.
  destruct (query_layer_post [s] q b) as (m1 & -> & Hm1 & _).
  rewrite (Hm1 Hq), (body_layer_plain _ [s] q b Hb). cbn [method path].
  by rewrite (dispatch_post_new s Hs).
Qed.

Lemma post_new_reaches_create_witness :
  app (js "...") (request "POST" [js "new"] ∅ goodForm) sampleWorld =
    Some (createPost (withId [] goodForm) sampleWorld).
Proof.
  apply post_new_reaches_create; vm_compute; reflexivity.
Defined.

(** ** Saving the edit form as it was prefilled *)

(** X20. Saving the edit form with the values it was prefilled with is
    always accepted and changes nothing: for a post as these handlers
    store it (trimmed, non-empty fields, title of at most 200), whatever
    else the collection holds, an update that submits its stored title
    and body is answered with the redirect to the post and leaves the
    collection exactly as it was, however long the body is. *)
Theorem saving_prefilled_edit_form_keeps_post (req : Request) (w : World)
  (doc : Doc) :
  tidyPost doc → outage w = None →
  docs w !! params_id req = Some doc →
  field (body req) "title" = JString (doc_title doc) →
  field (body req) "body" = JString (doc_body doc) →
  (showEditForm req w).1 =
    Normal (Render 200 "edit"
              (EditLocals None (params_id req) (doc_title doc) (doc_body doc)))
  ∧ (updatePost req w).1 =
      Normal (Redirect (js "/posts/" ++ params_id req))
  ∧ docs (updatePost req w).2 = docs w.
Proof.
  intros (Hnt & Hnb & Htt & Htb & Hlen) E Hl Ht Hb.
  assert (Est : sanitize (field (body req) "title") = doc_title doc)
    by by rewrite Ht, sanitize_string.
  assert (Esb : sanitize (field (body req) "body") = doc_body doc)
    by by rewrite Hb, sanitize_string.
  assert (Hok : updateErrors (sanitize (field (body req) "title"))
                  (sanitize (field (body req) "body")) = []).
  { rewrite Est, Esb. apply updateErrors_nil_iff.
    apply jslength_pos in Hnt, Hnb. lia. }
  rewrite (showEditForm_found req w doc E Hl).
  rewrite (updatePost_updated req w doc Hok E Hl). cbn [fst snd docs].
  split; [done|]. split; [done|].
  rewrite Est, Esb. apply insert_id. by destruct doc.
Qed.

Lemma saving_prefilled_edit_form_keeps_post_witness :
  docs (updatePost
          (withId sampleId
             (form (JString (js "Hello")) (JString (js "First post"))))
          sampleWorld).2 = docs sampleWorld.
Proof.
  destruct (saving_prefilled_edit_form_keeps_post
              (withId sampleId
                 (form (JString (js "Hello")) (JString (js "First post"))))
              sampleWorld
              {| doc_title := js "Hello"; doc_body := js "First post" |})
    as (_ & _ & H).
  - unfold tidyPost. cbn [doc_title doc_body].
    split; [discriminate|]. split; [discriminate|].
    split; [reflexivity|]. split; [reflexivity|].
    vm_compute. discriminate.
  - reflexivity.
  - vm_compute. reflexivity.
  - vm_compute. reflexivity.
  - vm_compute. reflexivity.
  - exact H.
Defined.
